(** * GraphSlick plugin: grouped graph colouring and selection

    A shallow embedding of [plugin.cpp]: the graph context [grdata_t] with
    its callback [gr_callback], the chooser [gschooser_t] with [load_file],
    [sizer], [get_color_anyway] and [enter].

    C++ objects allocated with [new] live in explicit stores keyed by
    address; a pointer is an [option] of an address ([None] is NULL) and a
    pointer whose target was deleted is simply absent from the store.
    Reading or writing through a NULL or dangling pointer is the outcome
    [Fault]; a [while (true)] loop that is still running when the fuel is
    spent is the outcome [Spin]. *)

From stdpp Require Import gmap strings list fin_maps pretty.

Local Open Scope Z_scope.

(** ** Addresses and outcomes *)

Definition addr := positive.

Inductive outcome (A : Type) : Type :=
  | Done (a : A)
  | Fault
  | Spin.
Arguments Done {A} a.
Arguments Fault {A}.
Arguments Spin {A}.

#[global] Instance outcome_ret : MRet outcome := fun A a => Done a.

#[global] Instance outcome_bind : MBind outcome := fun A B k m =>
  match m with
  | Done a => k a
  | Fault => Fault
  | Spin => Spin
  end.

Definition of_option {A : Type} (o : option A) : outcome A :=
  match o with
  | Some a => Done a
  | None => Fault
  end.

(** ** Colour generator *)

Module ColorGen.

(** 32-bit colours ([bgcolor_t]); 0 is the value [get_color_anyway] tests
  for when a variant generator has nothing left. *)
Definition bgcolor_t := Z.

(** Modelled from the spec: [colorgen.h] ([colorgen_t], [colorvargen_t]) is
  not part of the sources at hand.  The spec describes a finite palette of
  [bases] base colours with [variants] shades each (its total is
  bases × variants) and a cycle state made of a base index and a variant
  index.  A shade is a colour proper, never the exhausted value: it is a
  positive number. *)
Record palette := Palette {
bases : nat;
variants : nat;
shade : nat → nat → positive
}.

(** Modelled from the spec: state of [colorgen_t], the index of the next
  base colour to hand out. *)
Record colorgen_t := ColorGen { next_base : nat }.

(** Modelled from the spec: state of [colorvargen_t], the base colour it
  draws shades of (none for a default-constructed generator) and the index
  of its next shade. *)
Record colorvargen_t := ColorVarGen {
cv_base : option nat;
cv_next : nat
}.

(** [colorgen_t cg; cg.L_INT = -15; colorvargen_t cv;] of [DECL_CG]. *)
Definition cg_new : colorgen_t := ColorGen 0.
Definition cv_new : colorvargen_t := ColorVarGen None 0.

Section Palette.
Variable p : palette.

(** Modelled from the spec: [colorvargen_t::get_color], "returns the next
    shade of the current base color; returns a sentinel exhausted value
    when the current base has no more shades". *)
Definition get_color (cv : colorvargen_t) : bgcolor_t * colorvargen_t :=
  match cv_base cv with
  | Some b =>
      if (cv_next cv <? variants p)%nat
      then (Z.pos (shade p b (cv_next cv)),
            ColorVarGen (Some b) (S (cv_next cv)))
      else (0, cv)
  | None => (0, cv)
  end.

(** Modelled from the spec: [colorgen_t::get_colorvar], "advances to a new
    base color; returns false if all bases have been used in this
    cycle". *)
Definition get_colorvar (cg : colorgen_t) (cv : colorvargen_t)
  : bool * colorgen_t * colorvargen_t :=
  if (next_base cg <? bases p)%nat
  then (true, ColorGen (S (next_base cg)),
        ColorVarGen (Some (next_base cg)) 0%nat)
  else (false, cg, cv).

(** Modelled from the spec: [colorgen_t::rewind], "resets to the first
    base, first variant; never fails". *)
Definition rewind (cg : colorgen_t) : colorgen_t := ColorGen 0.

(** One pass through the body of the [while (true)] loop of
    [gschooser_t::get_color_anyway]: [inl] is the [break] with the colour
    found, [inr] the state the next iteration starts from. *)
Definition anyway_step (cg : colorgen_t) (cv : colorvargen_t)
  : (bgcolor_t * colorgen_t * colorvargen_t) + (colorgen_t * colorvargen_t) :=
  let '(clr, cv1) := get_color cv in
  if negb (clr =? 0) then inl (clr, cg, cv1)
  else
    let '(ok, cg1, cv2) := get_colorvar cg cv1 in
    if negb ok then
      let cg2 := rewind cg1 in
      let '(_, cg3, cv3) := get_colorvar cg2 cv2 in
      inr (cg3, cv3)
    else inr (cg1, cv2).

(** [gschooser_t::get_color_anyway]; [fuel] bounds the number of loop
    iterations, [None] means the loop has not left after [fuel] of them. *)
Fixpoint get_color_anyway (fuel : nat) (cg : colorgen_t) (cv : colorvargen_t)
  : option (bgcolor_t * colorgen_t * colorvargen_t) :=
  match fuel with
  | O => None
  | S fuel' =>
      match anyway_step cg cv with
      | inl r => Some r
      | inr (cg', cv') => get_color_anyway fuel' cg' cv'
      end
  end.

(** [k] calls of [get_color_anyway] in a row, two loop iterations allowed
    for each; the colours returned, in order, up to the first call that is
    still looping. *)
Fixpoint draw_colours (k : nat) (cg : colorgen_t) (cv : colorvargen_t)
  : list bgcolor_t :=
  match k with
  | O => []
  | S k' =>
      match get_color_anyway 2 cg cv with
      | Some (clr, cg', cv') => clr :: draw_colours k' cg' cv'
      | None => []
      end
  end.

(** The palette has at least one base with at least one variant. *)
Definition nonempty : Prop := (1 ≤ bases p)%nat ∧ (1 ≤ variants p)%nat.

(** The palette has no base, or its bases have no variant. *)
Definition empty : Prop := bases p = 0%nat ∨ variants p = 0%nat.

(** The variant generator draws from a base of this palette. *)
Definition cv_wf (cv : colorvargen_t) : Prop :=
  match cv_base cv with
  | Some b => (b < bases p)%nat
  | None => True
  end.

End Palette.

End ColorGen.

(** ** Group tree, chooser rows, graph context *)

(** Opaque host objects ([graph_viewer_t *], [TForm *]) are handles. *)
Definition handle := positive.

(** Modelled from the spec: the types of [groupman.h], which is not part of
    the sources at hand; the fields are the ones [plugin.cpp] reads. *)
Record nodedef_t := NodeDef {
  nid : Z;
  start : Z;
  end_ : Z
}.

Definition nodedef_list_t := list nodedef_t.
Definition nodegroup_listp_t := list nodedef_list_t.

Record groupdef_t := GroupDef {
  id : string;
  groupname : string;
  nodegroups : nodegroup_listp_t
}.

Record groupman_t := GroupMan {
  source_file : string;
  groups : list groupdef_t
}.

(** [new groupman_t()] before [parse] has filled it. *)
Definition groupman_new : groupman_t := GroupMan "" [].

(** Pointers into a group tree: the tree's address and the position of the
    group definition, respectively of the node definition list, within it. *)
Definition groupdef_ptr : Type := addr * nat.
Definition nodedef_list_ptr : Type := addr * nat * nat.

Inductive chooser_node_type_t := chnt_gm | chnt_gd | chnt_nl.

Record chooser_node_t := ChooserNode {
  chn_type : chooser_node_type_t;
  chn_gm : option addr;
  chn_gd : option groupdef_ptr;
  chn_ngl : option groupdef_ptr;
  chn_nl : option nodedef_list_ptr
}.

(** Modelled from the spec: [gnode_t] of the absent headers; [text] is the
    one field [plugin.cpp] reads. *)
Record gnode_t := GNode { text : string }.

(** The one place a [grdata_t **] ever points to: the [gr] member of the
    chooser ([gr->parent_ref = &gr] in [initializer]). *)
Inductive grdata_ref := ref_chooser_gr.

Definition rfm_soft : Z := 0.
Definition rfm_rebuild : Z := 1.

Record grdata_t := GrData {
  node_map : gmap Z gnode_t;
  ea : Z;
  cur_node : Z;
  gv : option handle;
  sel_nodes : gmap Z ColorGen.bgcolor_t;
  form : option handle;
  parent_ref : option grdata_ref;
  gd_gm : option addr;
  refresh_mode : Z
}.

(** [grdata_t::grdata_t(ea)]; [gm] is assigned by [show_graph] right after. *)
Definition grdata_new (ea0 : Z) (gm0 : option addr) : grdata_t :=
  GrData ∅ ea0 0 None ∅ None None gm0 rfm_soft.

Definition set_node_map (m : gmap Z gnode_t) (g : grdata_t) : grdata_t :=
  GrData m (ea g) (cur_node g) (gv g) (sel_nodes g) (form g) (parent_ref g)
         (gd_gm g) (refresh_mode g).
Definition set_cur_node (n : Z) (g : grdata_t) : grdata_t :=
  GrData (node_map g) (ea g) n (gv g) (sel_nodes g) (form g) (parent_ref g)
         (gd_gm g) (refresh_mode g).
Definition set_gv (v : option handle) (g : grdata_t) : grdata_t :=
  GrData (node_map g) (ea g) (cur_node g) v (sel_nodes g) (form g)
         (parent_ref g) (gd_gm g) (refresh_mode g).
Definition set_form (f : option handle) (g : grdata_t) : grdata_t :=
  GrData (node_map g) (ea g) (cur_node g) (gv g) (sel_nodes g) f (parent_ref g)
         (gd_gm g) (refresh_mode g).
Definition set_sel_nodes (m : gmap Z ColorGen.bgcolor_t) (g : grdata_t)
  : grdata_t :=
  GrData (node_map g) (ea g) (cur_node g) (gv g) m (form g) (parent_ref g)
         (gd_gm g) (refresh_mode g).

Record gschooser_t := GsChooser {
  ch_nodes : list chooser_node_t;
  gr : option addr;
  gm : option addr
}.

(** [gschooser_t::gschooser_t()]: no rows, [gr = NULL], [gm = NULL]. *)
Definition gschooser_new : gschooser_t := GsChooser [] None None.

(** The program state: the live [groupman_t] and [grdata_t] objects, the
    address the next [new] returns (addresses are not reused), the chooser
    singleton, the lines written by [msg] and the arguments of the
    [refresh_viewer] calls, both oldest first. *)
Record world := World {
  groupmans : gmap addr groupman_t;
  graphs : gmap addr grdata_t;
  brk : addr;
  chooser : gschooser_t;
  output : list string;
  refreshed : list (option handle)
}.

Definition set_groupmans (m : gmap addr groupman_t) (w : world) : world :=
  World m (graphs w) (brk w) (chooser w) (output w) (refreshed w).
Definition set_graphs (m : gmap addr grdata_t) (w : world) : world :=
  World (groupmans w) m (brk w) (chooser w) (output w) (refreshed w).
Definition set_brk (a : addr) (w : world) : world :=
  World (groupmans w) (graphs w) a (chooser w) (output w) (refreshed w).
Definition set_chooser (c : gschooser_t) (w : world) : world :=
  World (groupmans w) (graphs w) (brk w) c (output w) (refreshed w).
Definition msg (line : string) (w : world) : world :=
  World (groupmans w) (graphs w) (brk w) (chooser w) (output w ++ [line])
        (refreshed w).
Definition refresh_viewer (v : option handle) (w : world) : world :=
  World (groupmans w) (graphs w) (brk w) (chooser w) (output w)
        (refreshed w ++ [v]).

Definition set_ch_nodes (rows : list chooser_node_t) (w : world) : world :=
  set_chooser (GsChooser rows (gr (chooser w)) (gm (chooser w))) w.
Definition set_gr (a : option addr) (w : world) : world :=
  set_chooser (GsChooser (ch_nodes (chooser w)) a (gm (chooser w))) w.
Definition set_gm (a : option addr) (w : world) : world :=
  set_chooser (GsChooser (ch_nodes (chooser w)) (gr (chooser w)) a) w.

(** [*r = v] for a [grdata_t **r]. *)
Definition store_ref (r : grdata_ref) (v : option addr) (w : world) : world :=
  match r with
  | ref_chooser_gr => set_gr v w
  end.

(** ** The graph callback *)

Section Graph.
(** The host's [mutable_graph_t] and the converter [func_to_mgraph] of
    [algo.hpp], neither part of the sources at hand, are parameters: the
    converter receives the function address, the host graph and the node
    map, and leaves a graph and a node map behind. *)
Variable mutable_graph_t : Type.
Variable func_to_mgraph :
  Z → mutable_graph_t → gmap Z gnode_t → mutable_graph_t * gmap Z gnode_t.

(** The event code of [gr_callback] together with the arguments it takes
    from the [va_list]; [has_bgcolor] tells whether the [bgcolor_t *]
    argument is non-NULL. *)
Inductive event :=
  | grcode_changed_current (v : handle) (node : Z)
  | grcode_user_refresh (mg : mutable_graph_t)
  | grcode_user_text (mg : mutable_graph_t) (node : Z) (has_bgcolor : bool)
  | grcode_destroyed
  | grcode_other.

(** What the callback leaves behind its pointer arguments. *)
Inductive reply :=
  | reply_none
  | reply_graph (mg : mutable_graph_t)
  | reply_text (txt : string) (bgcolor : option ColorGen.bgcolor_t).

(** [grdata_t::get_node]; an id the node map does not hold gives NULL. *)
Definition get_node (g : grdata_t) (n : Z) : option gnode_t := node_map g !! n.

(** [this->field = ...] on the object at [ud]. *)
Definition store_graph (ud : addr) (g : grdata_t) (w : world) : world :=
  set_graphs (<[ud := g]> (graphs w)) w.

(** [delete this]. *)
Definition delete_graph (ud : addr) (w : world) : world :=
  set_graphs (delete ud (graphs w)) w.

(** The [grcode_destroyed] case up to, and without, [delete this]. *)
Definition destroyed_fields (ud : addr) (g : grdata_t) (w : world) : world :=
  let w1 := store_graph ud (set_form None (set_gv None g)) w in
  match parent_ref g with
  | Some r => store_ref r None w1
  | None => w1
  end.

(** [grdata_t::_gr_callback] / [grdata_t::gr_callback]: [ud] is the
    context pointer the viewer was created with; every case that reads or
    writes a member finds the object at [ud] first.  The result is the
    returned [int], the values written through the pointer arguments and
    the new program state. *)
Definition gr_callback (ud : addr) (ev : event) (w : world)
  : outcome (Z * reply * world) :=
  match ev with
  | grcode_changed_current _ node =>
      g ← of_option (graphs w !! ud);
      Done (0, reply_none, store_graph ud (set_cur_node node g) w)
  | grcode_user_refresh mg =>
      g ← of_option (graphs w !! ud);
      if bool_decide (node_map g = ∅) || (refresh_mode g =? rfm_rebuild)
      then
        let '(mg', nm') := func_to_mgraph (ea g) mg (node_map g) in
        Done (1, reply_graph mg', store_graph ud (set_node_map nm' g) w)
      else Done (1, reply_graph mg, w)
  | grcode_user_text _ node has_bgcolor =>
      g ← of_option (graphs w !! ud);
      n ← of_option (get_node g node);
      Done (1,
            reply_text (text n)
                       (if has_bgcolor then sel_nodes g !! node else None),
            w)
  | grcode_destroyed =>
      g ← of_option (graphs w !! ud);
      Done (1, reply_none, delete_graph ud (destroyed_fields ud g w))
  | grcode_other => Done (0, reply_none, w)
  end.

(** A run of draw pulls on the context at [ud], each handing over the
    graph the previous one left. *)
Fixpoint draw_pulls (k : nat) (ud : addr) (mg : mutable_graph_t) (w : world)
  : outcome (mutable_graph_t * world) :=
  match k with
  | O => Done (mg, w)
  | S k' =>
      '(_, r, w1) ← gr_callback ud (grcode_user_refresh mg) w;
      match r with
      | reply_graph mg1 => draw_pulls k' ud mg1 w1
      | _ => draw_pulls k' ud mg w1
      end
  end.

End Graph.

Arguments grcode_changed_current {mutable_graph_t} v node.
Arguments grcode_destroyed {mutable_graph_t}.
Arguments grcode_other {mutable_graph_t}.
Arguments reply_none {mutable_graph_t}.
Arguments reply_text {mutable_graph_t} txt bgcolor.

(** ** The chooser *)

Section Chooser.
(** [IS_SEL] of the host SDK and [groupman_t::parse] of [groupman.h] are
    parameters; [parse] fills the object it is called on and tells
    whether it succeeded. *)
Variable IS_SEL : Z → bool.
Variable parse : string → groupman_t → bool * groupman_t.
(** The palette [DECL_CG] configures. *)
Variable p : ColorGen.palette.

(** [gschooser_t::sizer]. *)
Definition sizer (w : world) : nat := length (ch_nodes (chooser w)).

(** [delete gm]: nothing for NULL, the tree is released otherwise;
    releasing a tree that is not live is a fault. *)
Definition delete_groupman (ptr : option addr) (w : world) : outcome world :=
  match ptr with
  | None => Done w
  | Some a =>
      _ ← of_option (groupmans w !! a);
      Done (set_groupmans (delete a (groupmans w)) w)
  end.

(** The chooser's [gm] is NULL or points to a live tree, so that
    [delete gm] is defined. *)
Definition gm_deletable (w : world) : Prop :=
  match gm (chooser w) with
  | None => True
  | Some a => is_Some (groupmans w !! a)
  end.

(** [new groupman_t()]. *)
Definition new_groupman (w : world) : addr * world :=
  (brk w,
   set_brk (Pos.succ (brk w))
           (set_groupmans (<[brk w := groupman_new]> (groupmans w)) w)).

Definition row_gm (a : addr) : chooser_node_t :=
  ChooserNode chnt_gm (Some a) None None None.
Definition row_gd (a : addr) (i : nat) : chooser_node_t :=
  ChooserNode chnt_gd (Some a) (Some (a, i)) (Some (a, i)) None.
Definition row_nl (a : addr) (i j : nat) : chooser_node_t :=
  ChooserNode chnt_nl (Some a) (Some (a, i)) (Some (a, i)) (Some (a, i, j)).

(** The inner loop of [load_file]: one row per node definition list of
    group [i], from list [j] on, pushed at the back of [rows]. *)
Fixpoint push_lists (a : addr) (i j : nat) (ngl : nodegroup_listp_t)
    (rows : list chooser_node_t) : list chooser_node_t :=
  match ngl with
  | [] => rows
  | _ :: rest => push_lists a i (S j) rest (rows ++ [row_nl a i j])
  end.

(** The outer loop of [load_file], from group [i] on. *)
Fixpoint push_groups (a : addr) (i : nat) (gds : list groupdef_t)
    (rows : list chooser_node_t) : list chooser_node_t :=
  match gds with
  | [] => rows
  | gd :: rest =>
      push_groups a (S i) rest
        (push_lists a i 0 (nodegroups gd) (rows ++ [row_gd a i]))
  end.

(** The rows the spec lists for a tree at address [a]: the file row, then
    per group its group row followed by one list row per node definition
    list. *)
Definition group_rows (a : addr) (i : nat) (gd : groupdef_t)
  : list chooser_node_t :=
  row_gd a i :: imap (fun j _ => row_nl a i j) (nodegroups gd).
Definition preorder_rows (a : addr) (t : groupman_t) : list chooser_node_t :=
  row_gm a :: concat (imap (group_rows a) (groups t)).

(** The row count the spec gives: 1 for the file plus, per group, 1 plus
    the number of its node definition lists. *)
Definition row_count (t : groupman_t) : nat :=
  (1 + sum_list (map (fun gd => 1 + length (nodegroups gd)) (groups t)))%nat.

Definition parse_error (filename : string) : string :=
  "error: failed to parse group file '" +:+ filename +:+ "'" +:+
  String (Ascii.ascii_of_nat 10) EmptyString.

(** [gschooser_t::load_file]. *)
Definition load_file (filename : string) (w : world) : outcome (bool * world) :=
  w1 ← delete_groupman (gm (chooser w)) w;
  let '(a, w2) := new_groupman w1 in
  let w3 := set_gm (Some a) w2 in
  let '(ok, t) := parse filename groupman_new in
  let w4 := set_groupmans (<[a := t]> (groupmans w3)) w3 in
  if negb ok then
    let w5 := msg (parse_error filename) w4 in
    w6 ← delete_groupman (gm (chooser w5)) w5;
    Done (false, w6)
  else
    let rows := ch_nodes (chooser w4) ++ [row_gm a] in
    Done (true, set_ch_nodes (push_groups a 0 (groups t) rows) w4).

(** [gr->sel_nodes[nd.nid] = clr]. *)
Definition paint_node (clr : ColorGen.bgcolor_t) (nd : nodedef_t) (w : world)
  : outcome world :=
  a ← of_option (gr (chooser w));
  g ← of_option (graphs w !! a);
  let g' := set_sel_nodes (<[nid nd := clr]> (sel_nodes g)) g in
  Done (set_graphs (<[a := g']> (graphs w)) w).

(** The highlight map after every node of [nl] was given the colour
    [clr]. *)
Definition painted (clr : ColorGen.bgcolor_t) (nl : nodedef_list_t)
    (m : gmap Z ColorGen.bgcolor_t) : gmap Z ColorGen.bgcolor_t :=
  foldl (fun m nd => <[nid nd := clr]> m) m nl.

(** The loop over one node definition list. *)
Fixpoint paint_list (clr : ColorGen.bgcolor_t) (nl : nodedef_list_t) (w : world)
  : outcome world :=
  match nl with
  | [] => Done w
  | nd :: rest => w1 ← paint_node clr nd w; paint_list clr rest w1
  end.

(** [get_color_anyway] as [enter] calls it: a loop that does not leave is
    the outcome [Spin]. *)
Definition color_anyway (fuel : nat) (cg : ColorGen.colorgen_t)
    (cv : ColorGen.colorvargen_t)
  : outcome
      (ColorGen.bgcolor_t * ColorGen.colorgen_t * ColorGen.colorvargen_t) :=
  match ColorGen.get_color_anyway p fuel cg cv with
  | Some r => Done r
  | None => Spin
  end.

(** The loop over the node definition lists of one group: a new colour
    variant for each. *)
Fixpoint paint_lists (fuel : nat) (ngl : nodegroup_listp_t)
    (cg : ColorGen.colorgen_t) (cv : ColorGen.colorvargen_t) (w : world)
  : outcome (ColorGen.colorgen_t * ColorGen.colorvargen_t * world) :=
  match ngl with
  | [] => Done (cg, cv, w)
  | nl :: rest =>
      '(clr, cg1, cv1) ← color_anyway fuel cg cv;
      w1 ← paint_list clr nl w;
      paint_lists fuel rest cg1 cv1 w1
  end.

(** The loop over all groups of the [chnt_gm] case. *)
Fixpoint paint_groups (fuel : nat) (gds : list groupdef_t)
    (cg : ColorGen.colorgen_t) (cv : ColorGen.colorvargen_t) (w : world)
  : outcome world :=
  match gds with
  | [] => Done w
  | gd :: rest =>
      let '(_, cg1, cv1) := ColorGen.get_colorvar p cg cv in
      '(cg2, cv2, w1) ← paint_lists fuel (nodegroups gd) cg1 cv1 w;
      paint_groups fuel rest cg2 cv2 w1
  end.

Definition deref_gm (w : world) (ptr : option addr) : outcome groupman_t :=
  a ← of_option ptr; of_option (groupmans w !! a).

Definition deref_ngl (w : world) (ptr : option groupdef_ptr)
  : outcome nodegroup_listp_t :=
  '(a, i) ← of_option ptr;
  t ← of_option (groupmans w !! a);
  gd ← of_option (groups t !! i);
  Done (nodegroups gd).

Definition deref_nl (w : world) (ptr : option nodedef_list_ptr)
  : outcome nodedef_list_t :=
  '(a, i, j) ← of_option ptr;
  t ← of_option (groupmans w !! a);
  gd ← of_option (groups t !! i);
  of_option (nodegroups gd !! j).

(** The node ids reachable from a list of group definitions. *)
Definition reachable_ids (gds : list groupdef_t) : list Z :=
  nid <$> concat (concat (nodegroups <$> gds)).

(** [gr->sel_nodes.clear()]. *)
Definition clear_sel_nodes (w : world) : outcome world :=
  a ← of_option (gr (chooser w));
  g ← of_option (graphs w !! a);
  Done (set_graphs (<[a := set_sel_nodes ∅ g]> (graphs w)) w).

(** The guard of the [chnt_nl] / [chnt_gd] case holds:
    [gr == NULL || gr->gv == NULL], for a [gr] that is NULL or live. *)
Definition no_view (w : world) : Prop :=
  match gr (chooser w) with
  | None => True
  | Some a =>
      match graphs w !! a with
      | Some g => gv g = None
      | None => False
      end
  end.

(** [gschooser_t::enter]; [n] is a [uint32], [fuel] bounds each run of the
    loop of [get_color_anyway]. *)
Definition enter (fuel : nat) (n : Z) (w : world) : outcome world :=
  if negb (IS_SEL n) || (Z.of_nat (length (ch_nodes (chooser w))) <? n)
  then Done w
  else
    chn ← of_option (ch_nodes (chooser w) !! Z.to_nat ((n - 1) `mod` 2 ^ 32));
    match chn_type chn with
    | chnt_gm =>
        t ← deref_gm w (gm (chooser w));
        paint_groups fuel (groups t) ColorGen.cg_new ColorGen.cv_new w
    | chnt_nl | chnt_gd =>
        match gr (chooser w) with
        | None => Done w
        | Some a =>
            g ← of_option (graphs w !! a);
            match gv g with
            | None => Done w
            | Some _ =>
                w1 ← clear_sel_nodes w;
                let '(_, cg1, cv1) :=
                  ColorGen.get_colorvar p ColorGen.cg_new ColorGen.cv_new in
                w2 ← match chn_type chn with
                     | chnt_nl =>
                         '(clr, _, _) ← color_anyway fuel cg1 cv1;
                         l ← deref_nl w1 (chn_nl chn);
                         paint_list clr l w1
                     | _ =>
                         ngl ← deref_ngl w1 (chn_ngl chn);
                         '(_, _, w') ← paint_lists fuel ngl cg1 cv1 w1;
                         Done w'
                     end;
                a' ← of_option (gr (chooser w2));
                g' ← of_option (graphs w2 !! a');
                Done (refresh_viewer (gv g') w2)
            end
        end
    end.

End Chooser.

(** ** Describing rows *)

Section Describe.
(** Host functions: [qbasename], the rendering of an address by the [%a]
    conversion of [sprnt], and what [qstrncpy (dst, src, MAXSTR)] leaves in
    [dst]. *)
Variable qbasename : string → string.
Variable fmt_ea : Z → string.
Variable qstrncpy : string → string.

Definition MY_TABSTR : string := "    ".

(** What the [%d] conversion prints of a 32-bit argument. *)
Definition fmt_d (z : Z) : string :=
  let m := z `mod` 2 ^ 32 in
  pretty (if m <? 2 ^ 31 then m else m - 2 ^ 32).

Definition deref_gd (w : world) (ptr : option groupdef_ptr)
  : outcome groupdef_t :=
  '(a, i) ← of_option ptr;
  t ← of_option (groupmans w !! a);
  of_option (groups t !! i).

(** ["%d:%a:%a"] of one node definition. *)
Definition desc_node (nd : nodedef_t) : string :=
  fmt_d (nid nd) +:+ ":" +:+ fmt_ea (start nd) +:+ ":" +:+ fmt_ea (end_ nd).

(** The loop of the [chnt_nl] case of [get_node_desc]: [sz] is the
    [size_t] counter, decremented once per node, and [out] the text so
    far. *)
Fixpoint desc_nodes (nl : nodedef_list_t) (sz : Z) (out : string) : string :=
  match nl with
  | [] => out
  | nd :: rest =>
      let out1 := out +:+ desc_node nd in
      let sz1 := (sz - 1) `mod` 2 ^ 32 in
      desc_nodes rest sz1 (if 0 <? sz1 then out1 +:+ ", " else out1)
  end.

(** [gschooser_t::get_node_desc]. *)
Definition get_node_desc (w : world) (node : chooser_node_t) : outcome string :=
  match chn_type node with
  | chnt_gm =>
      t ← deref_gm w (chn_gm node);
      Done (qbasename (source_file t))
  | chnt_gd =>
      gd ← deref_gd w (chn_gd node);
      ngl ← deref_ngl w (chn_ngl node);
      Done (MY_TABSTR +:+ groupname gd +:+ " (" +:+ id gd +:+ ") NGL(" +:+
            fmt_d (Z.of_nat (length ngl)) +:+ ")")
  | chnt_nl =>
      nl ← deref_nl w (chn_nl node);
      let sz := Z.of_nat (length nl) `mod` 2 ^ 32 in
      Done (desc_nodes nl sz
              (MY_TABSTR +:+ MY_TABSTR +:+ "NDL(" +:+ fmt_d sz +:+ "):(")
            +:+ ")")
  end.

(** [gschooser_t::getl]; [n] is a [uint32].  The result is the text written
    to [arrptr[0]], [None] when nothing is written. *)
Definition getl (n : Z) (w : world) : outcome (option string) :=
  if n =? 0 then Done (Some (qstrncpy "Node"))
  else if 1 <=? n then
    let n1 := (n - 1) `mod` 2 ^ 32 in
    if Z.of_nat (length (ch_nodes (chooser w))) <=? n1 then Done None
    else
      cn ← of_option (ch_nodes (chooser w) !! Z.to_nat n1);
      desc ← get_node_desc w cn;
      Done (Some (qstrncpy desc))
  else Done None.

End Describe.

(** ** Runs of chooser and graph callbacks *)

(** [w'] differs from [w] at most in the highlight map of the graph context
    the chooser's [gr] points to (and in the refresh requests). *)
Definition only_highlight (w w' : world) : Prop :=
  groupmans w' = groupmans w ∧ chooser w' = chooser w ∧
  output w' = output w ∧ brk w' = brk w ∧
  ∀ a,
    match graphs w !! a, graphs w' !! a with
    | Some g, Some g' =>
        g' = set_sel_nodes (sel_nodes g') g ∧
        (gr (chooser w) ≠ Some a → g' = g)
    | None, None => True
    | _, _ => False
    end.

(** From [w] to [w'] no graph context appears, and every context that is
    still there is related to what it was by [R]. *)
Definition contexts_evolve (R : grdata_t → grdata_t → Prop) (w w' : world)
  : Prop :=
  ∀ a,
    match graphs w !! a, graphs w' !! a with
    | Some g, Some g' => R g g'
    | None, Some _ => False
    | _, None => True
    end.

(** The refresh mode is as it was, and so is the node map if it was built
    and the mode does not ask for a rebuild. *)
Definition build_kept (g g' : grdata_t) : Prop :=
  refresh_mode g' = refresh_mode g ∧
  (node_map g ≠ ∅ → refresh_mode g ≠ rfm_rebuild →
   node_map g' = node_map g).

(** The highlight map is as it was. *)
Definition highlight_kept (g g' : grdata_t) : Prop :=
  sel_nodes g' = sel_nodes g.

(** The highlight map after the lists of [ngl] were painted in turn with
    the colours [cs]. *)
Definition painted_lists (cs : list ColorGen.bgcolor_t)
    (ngl : nodegroup_listp_t) (m : gmap Z ColorGen.bgcolor_t)
  : gmap Z ColorGen.bgcolor_t :=
  foldl (fun m cn => painted cn.1 cn.2 m) m (zip cs ngl).

Section Run.
Variable mutable_graph_t : Type.
Variable func_to_mgraph :
  Z → mutable_graph_t → gmap Z gnode_t → mutable_graph_t * gmap Z gnode_t.
Variable IS_SEL : Z → bool.
Variable parse : string → groupman_t → bool * groupman_t.
Variable p : ColorGen.palette.

(** [gschooser_t::select]: the first index of the selection, an [int],
    goes to [enter], which takes a [uint32]. *)
Definition select (fuel : nat) (sel : list Z) (w : world) : outcome world :=
  n ← of_option (sel !! 0%nat);
  enter IS_SEL p fuel (n `mod` 2 ^ 32) w.

(** What the host can ask for: a row entered, a selection made, a group
    file loaded, an event delivered to the graph context at [ud]. *)
Inductive action :=
  | do_enter (n : Z)
  | do_select (sel : list Z)
  | do_load (filename : string)
  | do_event (ud : addr) (ev : event mutable_graph_t).

Definition perform (fuel : nat) (act : action) (w : world) : outcome world :=
  match act with
  | do_enter n => enter IS_SEL p fuel n w
  | do_select sel => select fuel sel w
  | do_load filename => '(_, w') ← load_file parse filename w; Done w'
  | do_event ud ev =>
      '(_, _, w') ← gr_callback mutable_graph_t func_to_mgraph ud ev w;
      Done w'
  end.

Fixpoint run (fuel : nat) (acts : list action) (w : world) : outcome world :=
  match acts with
  | [] => Done w
  | act :: rest => w1 ← perform fuel act w; run fuel rest w1
  end.

(** An action that is neither [enter] nor [select]. *)
Definition no_selection (act : action) : Prop :=
  match act with
  | do_enter _ | do_select _ => False
  | _ => True
  end.

End Run.

Arguments do_enter {mutable_graph_t} n.
Arguments do_select {mutable_graph_t} sel.
Arguments do_load {mutable_graph_t} filename.

(** ** A sample host *)

Module Sample.

(** Two bases of two shades each: 1, 2 and 11, 12. *)
Definition pal : ColorGen.palette :=
  ColorGen.Palette 2 2 (fun b v => Pos.of_succ_nat (10 * b + v)).

(** A palette without any base. *)
Definition no_pal : ColorGen.palette :=
  ColorGen.Palette 0 2 (fun _ _ => 1%positive).

(** A host whose [IS_SEL] rejects three special indices at the top of the
    [uint32] range and accepts every other index. *)
Definition is_sel (n : Z) : bool :=
  negb ((n =? 2 ^ 32 - 2) || (n =? 2 ^ 32 - 3) || (n =? 2 ^ 32 - 5)).

(** Group file [a.bbgroup]: one group, one list holding node 99. *)
Definition tree_a : groupman_t :=
  GroupMan "a.bbgroup" [GroupDef "ID_A" "GA" [[NodeDef 99 4096 4112]]].

(** Group file [b.bbgroup]: group G1 with the lists {1, 2} and {3}. *)
Definition tree_b : groupman_t :=
  GroupMan "b.bbgroup"
    [GroupDef "ID_1" "G1"
       [[NodeDef 1 8192 8200; NodeDef 2 8200 8208]; [NodeDef 3 8208 8216]]].

(** A loader that knows these two files and fails on any other. *)
Definition parse (filename : string) (t : groupman_t) : bool * groupman_t :=
  if String.eqb filename "a.bbgroup" then (true, tree_a)
  else if String.eqb filename "b.bbgroup" then (true, tree_b)
  else (false, t).

(** A converter that builds the two-node graph of any function. *)
Definition two_nodes : gmap Z gnode_t :=
  <[0 := GNode "entry"]> (<[1 := GNode "exit"]> ∅).
Definition conv (a : Z) (mg : unit) (nm : gmap Z gnode_t)
  : unit * gmap Z gnode_t := (mg, two_nodes).

(** Nothing loaded, nothing shown. *)
Definition w_fresh : world := World ∅ ∅ 1%positive gschooser_new [] [].

(** [a.bbgroup] loaded at address 1; a graph context at address 2 with a
    viewer and a form, its [parent_ref] pointing at the chooser's [gr]:
    the state [initializer] leaves. *)
Definition rows_a : list chooser_node_t :=
  [row_gm 1%positive; row_gd 1%positive 0; row_nl 1%positive 0 0].
Definition graph_a (sel : gmap Z ColorGen.bgcolor_t) : grdata_t :=
  GrData ∅ 4096 0 (Some 7%positive) sel (Some 8%positive)
         (Some ref_chooser_gr) (Some 1%positive) rfm_soft.
Definition w_shown (sel : gmap Z ColorGen.bgcolor_t) : world :=
  World {[1%positive := tree_a]} {[2%positive := graph_a sel]} 3%positive
        (GsChooser rows_a (Some 2%positive) (Some 1%positive)) [] [].

(** The same, but [create_graph_viewer] gave no viewer: [gv] and [form]
    stayed NULL. *)
Definition graph_blind (sel : gmap Z ColorGen.bgcolor_t) : grdata_t :=
  GrData ∅ 4096 0 None sel None (Some ref_chooser_gr) (Some 1%positive)
         rfm_soft.
Definition w_blind (sel : gmap Z ColorGen.bgcolor_t) : world :=
  World {[1%positive := tree_a]} {[2%positive := graph_blind sel]} 3%positive
        (GsChooser rows_a (Some 2%positive) (Some 1%positive)) [] [].

(** The state of [w_shown] once the first draw pull has built the node
    map. *)
Definition graph_built (sel : gmap Z ColorGen.bgcolor_t) : grdata_t :=
  GrData two_nodes 4096 0 (Some 7%positive) sel (Some 8%positive)
         (Some ref_chooser_gr) (Some 1%positive) rfm_soft.
Definition w_built (sel : gmap Z ColorGen.bgcolor_t) : world :=
  World {[1%positive := tree_a]} {[2%positive := graph_built sel]} 3%positive
        (GsChooser rows_a (Some 2%positive) (Some 1%positive)) [] [].

(** [b.bbgroup] loaded at address 1 and shown, node map built. *)
Definition w_built_b (sel : gmap Z ColorGen.bgcolor_t) : world :=
  World {[1%positive := tree_b]} {[2%positive := graph_built sel]} 3%positive
        (GsChooser (preorder_rows 1%positive tree_b)
                   (Some 2%positive) (Some 1%positive)) [] [].

(** A host that prints addresses in decimal, takes a path for its own
    base name and copies lines unshortened. *)
Definition fmt_ea (a : Z) : string := pretty a.
Definition qbasename (path : string) : string := path.
Definition qstrncpy (src : string) : string := src.

(** A run over [w_built]: the list row is entered, the graph is drawn,
    [b.bbgroup] is loaded, its file row is entered, the current node
    changes, the graph is drawn again. *)
Definition busy_run : list (action unit) :=
  [do_enter 3; do_event unit 2%positive (grcode_user_refresh unit tt);
   do_load "b.bbgroup"; do_select [4; 5];
   do_event unit 2%positive (grcode_changed_current 7%positive 1);
   do_event unit 2%positive (grcode_user_refresh unit tt)].

(** A run without selections. *)
Definition quiet_run : list (action unit) :=
  [do_load "b.bbgroup";
   do_event unit 2%positive (grcode_user_refresh unit tt);
   do_event unit 2%positive (grcode_user_text unit tt 0 true);
   do_load "missing.bbgroup"].

End Sample.

(** * Properties *)

(** ** The colour cycle *)

Section ColorGenFacts.
Import ColorGen.
Variable p : palette.

Lemma anyway_step_fresh_base cg :
  nonempty p →
  ∃ cg' b, (b < bases p)%nat ∧
    ∀ cv, fst (get_color p cv) = 0 →
      anyway_step p cg cv = inr (cg', ColorVarGen (Some b) 0).
Proof.
  intros [Hb Hv]. unfold anyway_step, get_colorvar, rewind. simpl.
  destruct (next_base cg <? bases p)%nat eqn:E.
  - exists (ColorGen (S (next_base cg))), (next_base cg). split.
    + by apply Nat.ltb_lt.
    + intros cv H0. destruct (get_color p cv) as [clr cv1]. simpl in H0.
      by subst clr.
  - exists (ColorGen 1), 0%nat. split; [lia|].
    intros cv H0. destruct (get_color p cv) as [clr cv1]. simpl in H0.
    subst clr. simpl.
    destruct (0 <? bases p)%nat eqn:E0; [done|].
    apply Nat.ltb_ge in E0. lia.
Qed.

Lemma get_color_nonzero_break cg cv :
  fst (get_color p cv) ≠ 0 →
  anyway_step p cg cv = inl (fst (get_color p cv), cg, snd (get_color p cv)).
Proof.
  intros H. unfold anyway_step. destruct (get_color p cv) as [clr cv1].
  simpl in *. destruct (clr =? 0) eqn:E; [apply Z.eqb_eq in E; done | done].
Qed.

Lemma get_color_anyway_2 cg cv :
  nonempty p →
  ∃ clr cg' cv',
    get_color_anyway p 2 cg cv = Some (clr, cg', cv') ∧ clr ≠ 0.
Proof.
  intros Hne. destruct (decide (fst (get_color p cv) = 0)) as [H0|H0].
  - destruct (anyway_step_fresh_base cg Hne) as (cg' & b & Hb & Hstep).
    simpl. rewrite (Hstep cv H0).
    assert (Hc : get_color p (ColorVarGen (Some b) 0)
                 = (Z.pos (shade p b 0), ColorVarGen (Some b) 1)).
    { unfold get_color. simpl. destruct Hne as [_ Hv].
      destruct (0 <? variants p)%nat eqn:E; [done|].
      apply Nat.ltb_ge in E. lia. }
    rewrite get_color_nonzero_break; rewrite Hc; simpl; [|done].
    eexists _, _, _. split; [done | done].
  - simpl. rewrite (get_color_nonzero_break cg cv H0).
    eexists _, _, _. split; [done | done].
Qed.

Lemma get_color_anyway_mono fuel fuel' cg cv r :
  (fuel ≤ fuel')%nat →
  get_color_anyway p fuel cg cv = Some r →
  get_color_anyway p fuel' cg cv = Some r.
Proof.
  revert fuel' cg cv. induction fuel as [|fuel IH]; intros fuel' cg cv Hle H.
  - done.
  - destruct fuel' as [|fuel']; [lia|]. simpl in *.
    destruct (anyway_step p cg cv) as [r'|[cg' cv']]; [done|].
    apply IH; [lia | done].
Qed.

Lemma get_color_anyway_total fuel cg cv :
  nonempty p → (2 ≤ fuel)%nat →
  ∃ clr cg' cv',
    get_color_anyway p fuel cg cv = Some (clr, cg', cv') ∧ clr ≠ 0.
Proof.
  intros Hne Hf.
  destruct (get_color_anyway_2 cg cv Hne) as (clr & cg' & cv' & H & Hz).
  exists clr, cg', cv'. split; [|done].
  by apply (get_color_anyway_mono 2 fuel).
Qed.

Lemma empty_get_color cv :
  empty p → cv_wf p cv → get_color p cv = (0, cv).
Proof.
  intros He Hwf. unfold get_color, cv_wf in *.
  destruct (cv_base cv) as [b|]; [|done].
  destruct He as [He|He]; [lia|].
  rewrite He. done.
Qed.

Lemma empty_anyway_step cg cv :
  empty p → cv_wf p cv →
  ∃ cg' cv', anyway_step p cg cv = inr (cg', cv') ∧ cv_wf p cv'.
Proof.
  intros He Hwf. unfold anyway_step. rewrite (empty_get_color cv He Hwf). simpl.
  unfold get_colorvar at 1.
  destruct (next_base cg <? bases p)%nat eqn:E; simpl.
  - eexists _, _. split; [done|]. unfold cv_wf. simpl. by apply Nat.ltb_lt.
  - unfold get_colorvar, rewind. simpl.
    destruct (0 <? bases p)%nat eqn:E0.
    + eexists _, _. split; [done|]. unfold cv_wf. simpl. by apply Nat.ltb_lt.
    + eexists _, _. split; [done|]. done.
Qed.

Lemma empty_get_color_anyway fuel cg cv :
  empty p → cv_wf p cv → get_color_anyway p fuel cg cv = None.
Proof.
  intros He. revert cg cv.
  induction fuel as [|fuel IH]; intros cg cv Hwf; [done|].
  simpl. destruct (empty_anyway_step cg cv He Hwf) as (cg' & cv' & -> & Hwf').
  by apply IH.
Qed.

(** C7: with a palette of at least one base and at least one variant,
    [get_color_anyway] leaves its loop within two iterations, whatever the
    state of the two generators, and the colour it returns is not 0; with
    an empty palette, and a variant generator that is new or was handed out
    for this palette, the loop is still running after any number of
    iterations. *)
Theorem get_color_anyway_terminates :
  (nonempty p →
     ∀ cg cv, ∃ clr cg' cv',
       get_color_anyway p 2 cg cv = Some (clr, cg', cv') ∧ clr ≠ 0) ∧
  (empty p →
     ∀ fuel cg cv, cv_wf p cv → get_color_anyway p fuel cg cv = None).
Proof.
  split.
  - intros Hne cg cv. by apply get_color_anyway_2.
  - intros He fuel cg cv Hwf. by apply empty_get_color_anyway.
Qed.

End ColorGenFacts.

(** ** The graph callback *)

Section GraphFacts.
Variable mutable_graph_t : Type.
Variable func_to_mgraph :
  Z → mutable_graph_t → gmap Z gnode_t → mutable_graph_t * gmap Z gnode_t.

Lemma soft_pull ud w g mg :
  graphs w !! ud = Some g →
  node_map g ≠ ∅ →
  refresh_mode g = rfm_soft →
  gr_callback mutable_graph_t func_to_mgraph ud (grcode_user_refresh _ mg) w
    = Done (1, reply_graph _ mg, w).
Proof.
  intros Hg Hne Hsoft. unfold gr_callback. cbn. rewrite Hg. cbn.
  rewrite bool_decide_eq_false_2 by done. by rewrite Hsoft.
Qed.

(** C8: on a context whose node map is not empty and whose refresh mode is
    soft, a draw pull, and any number of draw pulls in a row, returns 1 and
    leaves the whole program state, the node map included, as it is; the
    converter is not run and the host graph comes back untouched. *)
Theorem soft_pulls_keep_node_map ud w g mg k :
  graphs w !! ud = Some g →
  node_map g ≠ ∅ →
  refresh_mode g = rfm_soft →
  gr_callback mutable_graph_t func_to_mgraph ud (grcode_user_refresh _ mg) w
    = Done (1, reply_graph _ mg, w) ∧
  draw_pulls mutable_graph_t func_to_mgraph k ud mg w = Done (mg, w).
Proof.
  intros Hg Hne Hsoft. split; [by eapply soft_pull|].
  induction k as [|k IH]; [done|].
  cbn [draw_pulls]. rewrite (soft_pull ud w g mg Hg Hne Hsoft). exact IH.
Qed.

(** C2, as the code has it: a draw pull on a context whose node map is
    empty or whose refresh mode is rebuild returns 1, hands the node map to
    the converter and keeps what the converter leaves; the highlight map
    [sel_nodes] and every other field of the context stay as they were. *)
Theorem rebuild_pull_keeps_highlight ud w g mg :
  graphs w !! ud = Some g →
  node_map g = ∅ ∨ refresh_mode g = rfm_rebuild →
  ∃ w' g',
    gr_callback mutable_graph_t func_to_mgraph ud (grcode_user_refresh _ mg) w
      = Done (1, reply_graph _ (func_to_mgraph (ea g) mg (node_map g)).1, w')
    ∧
    graphs w' !! ud = Some g' ∧
    node_map g' = (func_to_mgraph (ea g) mg (node_map g)).2 ∧
    sel_nodes g' = sel_nodes g ∧
    g' = set_node_map (node_map g') g ∧
    (∀ a, a ≠ ud → graphs w' !! a = graphs w !! a) ∧
    chooser w' = chooser w ∧ groupmans w' = groupmans w.
Proof.
  intros Hg Hre. unfold gr_callback. cbn. rewrite Hg. cbn.
  assert (Hc : bool_decide (node_map g = ∅) || (refresh_mode g =? rfm_rebuild)
               = true).
  { destruct Hre as [He|Hr].
    - by rewrite bool_decide_eq_true_2.
    - rewrite Hr. by rewrite orb_true_r. }
  rewrite Hc.
  destruct (func_to_mgraph (ea g) mg (node_map g)) as [mg' nm'] eqn:E.
  eexists _, _. split; [done|]. simpl.
  split; [apply lookup_insert_eq|].
  repeat split; try done.
  intros a Ha. by apply lookup_insert_ne.
Qed.

(** C9, as the code has it: a destroy notification for a live context
    returns 1; before the context is released its [gv] and [form] are
    NULL and, when [parent_ref] is set, the chooser's [gr] is NULL; after
    it the context is released, the chooser's [gr] is NULL when
    [parent_ref] was set and as before otherwise, and every other context,
    the group trees, the rows, the messages and the refresh requests are
    as before.  The handler has no guard of its own: a second destroy
    notification for the same context finds it released. *)
Theorem destroy_live_context ud w g :
  graphs w !! ud = Some g →
  ∃ w1 g1 w',
    w1 = destroyed_fields ud g w ∧
    graphs w1 !! ud = Some g1 ∧ gv g1 = None ∧ form g1 = None ∧
    gr_callback mutable_graph_t func_to_mgraph ud grcode_destroyed w
      = Done (1, reply_none, w') ∧
    graphs w' = delete ud (graphs w) ∧
    graphs w' !! ud = None ∧
    gr (chooser w') = gr (chooser w1) ∧
    gr (chooser w') =
      match parent_ref g with
      | Some _ => None
      | None => gr (chooser w)
      end ∧
    ch_nodes (chooser w') = ch_nodes (chooser w) ∧
    gm (chooser w') = gm (chooser w) ∧
    groupmans w' = groupmans w ∧
    output w' = output w ∧ refreshed w' = refreshed w ∧
    gr_callback mutable_graph_t func_to_mgraph ud grcode_destroyed w' = Fault.
Proof.
  intros Hg. unfold gr_callback. cbn. rewrite Hg. cbn.
  unfold destroyed_fields.
  destruct (parent_ref g) as [[]|]; simpl;
    (eexists _, (set_form None (set_gv None g)), _);
    (split; [done|]);
    (split; [apply lookup_insert_eq|]);
    repeat split; try done;
    try apply delete_insert_eq; try apply lookup_delete_eq;
    cbn [graphs delete_graph set_graphs]; by rewrite lookup_delete_eq.
Qed.

End GraphFacts.

(** ** Loading a group file *)

Section LoadFacts.
Variable parse : string → groupman_t → bool * groupman_t.

Lemma push_lists_spec a i ngl : ∀ j rows,
  push_lists a i j ngl rows = rows ++ imap (fun k _ => row_nl a i (j + k)) ngl.
Proof.
  induction ngl as [|nl ngl IH]; intros j rows; simpl.
  - by rewrite app_nil_r.
  - rewrite IH, <- app_assoc. simpl. rewrite Nat.add_0_r.
    do 2 f_equal. apply imap_ext. intros k x _. simpl. f_equal. lia.
Qed.

Lemma push_groups_spec a gds : ∀ i rows,
  push_groups a i gds rows
    = rows ++ concat (imap (fun k => group_rows a (i + k)) gds).
Proof.
  induction gds as [|gd gds IH]; intros i rows; simpl.
  - by rewrite app_nil_r.
  - rewrite IH, push_lists_spec, <- !app_assoc. f_equal.
    rewrite Nat.add_0_r. unfold group_rows at 2. simpl. do 2 f_equal.
    f_equal. apply imap_ext. intros k x _. simpl. unfold group_rows.
    by replace (i + S k)%nat with (S (i + k)) by lia.
Qed.

Lemma concat_imap_length {A B : Type} (g : A → nat) (l : list A) :
  ∀ f : nat → A → list B,
  (∀ i x, length (f i x) = g x) →
  length (concat (imap f l)) = sum_list (map g l).
Proof.
  induction l as [|x l IH]; intros f Hf; [done|].
  simpl. rewrite length_app, Hf. f_equal. apply IH. intros i y. apply Hf.
Qed.

Lemma preorder_rows_length a t : length (preorder_rows a t) = row_count t.
Proof.
  unfold preorder_rows, row_count. simpl. f_equal.
  apply concat_imap_length. intros i gd. unfold group_rows. simpl.
  by rewrite length_imap.
Qed.

(** The pointers of a group row and of a list row lead to the node group
    list and to the node definition list they were made for. *)
Lemma rows_resolve w a t i j gd nl :
  groupmans w !! a = Some t →
  groups t !! i = Some gd →
  nodegroups gd !! j = Some nl →
  deref_ngl w (chn_ngl (row_gd a i)) = Done (nodegroups gd) ∧
  deref_nl w (chn_nl (row_nl a i j)) = Done nl.
Proof.
  intros Ht Hgd Hnl. unfold deref_ngl, deref_nl. cbn.
  rewrite Ht. cbn. rewrite Hgd. cbn. by rewrite Hnl.
Qed.

Lemma delete_groupman_ok w :
  gm_deletable w →
  ∃ w1, delete_groupman (gm (chooser w)) w = Done w1 ∧
    (∀ a, gm (chooser w) = Some a →
          groupmans w1 = delete a (groupmans w)) ∧
    (gm (chooser w) = None → w1 = w) ∧
    graphs w1 = graphs w ∧ brk w1 = brk w ∧ chooser w1 = chooser w ∧
    output w1 = output w ∧ refreshed w1 = refreshed w.
Proof.
  unfold gm_deletable, delete_groupman. destruct (gm (chooser w)) as [a|].
  - intros [t Ht]. rewrite Ht. simpl. eexists. split; [done|].
    repeat split; try done. by intros ? [= <-].
  - intros _. exists w. repeat split; try done.
Qed.

Lemma load_file_success filename w t :
  gm_deletable w →
  parse filename groupman_new = (true, t) →
  ∃ w',
    load_file parse filename w = Done (true, w') ∧
    ch_nodes (chooser w') = ch_nodes (chooser w) ++ preorder_rows (brk w) t ∧
    gm (chooser w') = Some (brk w) ∧
    groupmans w' !! brk w = Some t ∧
    (∀ a, gm (chooser w) = Some a → a ≠ brk w →
          groupmans w' !! a = None) ∧
    gr (chooser w') = gr (chooser w) ∧
    graphs w' = graphs w ∧ output w' = output w ∧
    refreshed w' = refreshed w.
Proof.
  intros Hdel Hparse.
  destruct (delete_groupman_ok w Hdel)
    as (w1 & Hw1 & Hgone & _ & Hgr & Hbrk & Hch & Hout & Href).
  unfold load_file. rewrite Hw1. simpl. unfold new_groupman. simpl.
  rewrite Hparse. simpl. eexists. split; [done|]. simpl.
  rewrite Hch, Hbrk, Hgr, Hout, Href.
  rewrite push_groups_spec. simpl. rewrite <- app_assoc. simpl.
  repeat split; try done.
  - apply lookup_insert_eq.
  - intros a Ha Hne. rewrite !lookup_insert_ne by done.
    rewrite (Hgone a Ha). apply lookup_delete_eq.
Qed.

(** X13: loading a group file into a chooser that has no rows yet ends with
    [true] and leaves exactly the rows of the tree in pre-order, the file
    row, then per group its group row followed by one list row per node
    definition list; [sizer] is then 1 plus, summed over the groups, 1
    plus the number of node definition lists of the group. *)
Theorem load_file_rows_preorder filename w t :
  gm_deletable w →
  ch_nodes (chooser w) = [] →
  parse filename groupman_new = (true, t) →
  ∃ w',
    load_file parse filename w = Done (true, w') ∧
    ch_nodes (chooser w') = preorder_rows (brk w) t ∧
    sizer w' = row_count t ∧
    sizer w' = (1 + sum_list (map (fun gd => 1 + length (nodegroups gd))
                                  (groups t)))%nat.
Proof.
  intros Hdel Hrows Hparse.
  destruct (load_file_success filename w t Hdel Hparse)
    as (w' & Hload & Hch & _).
  exists w'. rewrite Hrows in Hch. simpl in Hch.
  unfold sizer. rewrite Hch, preorder_rows_length. done.
Qed.

(** What a load that fails to parse leaves behind: the error line is
    written, [false] is returned, the rows, the graph contexts and the
    chooser's [gr] are as they were, and the tree loaded before, if any,
    has been released. *)
Theorem load_file_parse_failure filename w t :
  gm_deletable w →
  parse filename groupman_new = (false, t) →
  ∃ w',
    load_file parse filename w = Done (false, w') ∧
    output w' = output w ++ [parse_error filename] ∧
    ch_nodes (chooser w') = ch_nodes (chooser w) ∧
    (∀ a, gm (chooser w) = Some a → groupmans w' !! a = None) ∧
    gr (chooser w') = gr (chooser w) ∧
    graphs w' = graphs w ∧ refreshed w' = refreshed w.
Proof.
  intros Hdel Hparse.
  destruct (delete_groupman_ok w Hdel)
    as (w1 & Hw1 & Hgone & _ & Hgr & Hbrk & Hch & Hout & Href).
  unfold load_file. rewrite Hw1. simpl. unfold new_groupman. simpl.
  rewrite Hparse. simpl. rewrite lookup_insert_eq. simpl.
  eexists. split; [done|]. simpl.
  rewrite Hch, Hgr, Hout, Href. repeat split; try done.
  intros a Ha. rewrite Hbrk. destruct (decide (a = brk w)) as [->|Hne].
  - apply lookup_delete_eq.
  - rewrite lookup_delete_ne by done. rewrite !lookup_insert_ne by done.
    rewrite (Hgone a Ha). apply lookup_delete_eq.
Qed.

End LoadFacts.

(** ** Selecting a row *)

Section EnterFacts.
Variable IS_SEL : Z → bool.
Variable p : ColorGen.palette.

Lemma set_sel_nodes_same g : set_sel_nodes (sel_nodes g) g = g.
Proof. by destruct g. Qed.

Lemma set_graphs_same w : set_graphs (graphs w) w = w.
Proof. by destruct w. Qed.

Lemma painted_lookup clr l : ∀ (m : gmap Z ColorGen.bgcolor_t) k,
  painted clr l m !! k
    = if bool_decide (k ∈ nid <$> l) then Some clr else m !! k.
Proof.
  unfold painted. induction l as [|nd l IH]; intros m k; cbn [foldl].
  - rewrite bool_decide_eq_false_2; [done|].
    rewrite fmap_nil. apply not_elem_of_nil.
  - rewrite IH, fmap_cons.
    destruct (decide (k ∈ nid <$> l)) as [Hin|Hin].
    + rewrite !bool_decide_eq_true_2; [done | by right | done].
    + rewrite (bool_decide_eq_false_2 _ Hin).
      destruct (decide (k = nid nd)) as [->|Hne].
      * rewrite lookup_insert_eq, bool_decide_eq_true_2; [done | by left].
      * rewrite lookup_insert_ne by done.
        rewrite bool_decide_eq_false_2; [done|].
        intros [E|E]%elem_of_cons; done.
Qed.

Lemma paint_list_ok clr l : ∀ w a g,
  gr (chooser w) = Some a →
  graphs w !! a = Some g →
  paint_list clr l w
    = Done (set_graphs
              (<[a := set_sel_nodes (painted clr l (sel_nodes g)) g]>
                 (graphs w)) w).
Proof.
  induction l as [|nd l IH]; intros w a g Hgr Hg; simpl.
  - unfold painted. simpl. rewrite set_sel_nodes_same, insert_id by done.
    by rewrite set_graphs_same.
  - unfold paint_node. rewrite Hgr. simpl. rewrite Hg. simpl.
    erewrite IH; [|done|simpl; apply lookup_insert_eq].
    simpl. by rewrite insert_insert_eq.
Qed.

Lemma color_anyway_total fuel cg cv :
  ColorGen.nonempty p → (2 ≤ fuel)%nat →
  ∃ clr cg' cv',
    ColorGen.get_color_anyway p fuel cg cv = Some (clr, cg', cv') ∧
    color_anyway p fuel cg cv = Done (clr, cg', cv') ∧ clr ≠ 0.
Proof.
  intros Hne Hf.
  destruct (get_color_anyway_total p fuel cg cv Hne Hf)
    as (clr & cg' & cv' & H & Hz).
  exists clr, cg', cv'. unfold color_anyway. by rewrite H.
Qed.

Lemma enter_guard_passed n w chn :
  IS_SEL n = true →
  n ≤ Z.of_nat (length (ch_nodes (chooser w))) →
  ch_nodes (chooser w) !! Z.to_nat ((n - 1) `mod` 2 ^ 32) = Some chn →
  ∀ fuel, enter IS_SEL p fuel n w =
    match chn_type chn with
    | chnt_gm =>
        t ← deref_gm w (gm (chooser w));
        paint_groups p fuel (groups t) ColorGen.cg_new ColorGen.cv_new w
    | _ =>
        match gr (chooser w) with
        | None => Done w
        | Some a =>
            g ← of_option (graphs w !! a);
            match gv g with
            | None => Done w
            | Some _ =>
                w1 ← clear_sel_nodes w;
                let '(_, cg1, cv1) :=
                  ColorGen.get_colorvar p ColorGen.cg_new ColorGen.cv_new in
                w2 ← match chn_type chn with
                     | chnt_nl =>
                         '(clr, _, _) ← color_anyway p fuel cg1 cv1;
                         l ← deref_nl w1 (chn_nl chn);
                         paint_list clr l w1
                     | _ =>
                         ngl ← deref_ngl w1 (chn_ngl chn);
                         '(_, _, w') ← paint_lists p fuel ngl cg1 cv1 w1;
                         Done w'
                     end;
                a' ← of_option (gr (chooser w2));
                g' ← of_option (graphs w2 !! a');
                Done (refresh_viewer (gv g') w2)
            end
        end
    end.
Proof.
  intros Hsel Hn Hrow fuel. unfold enter. rewrite Hsel. simpl.
  assert (Hlt : (Z.of_nat (length (ch_nodes (chooser w))) <? n) = false)
    by (apply Z.ltb_ge; lia).
  rewrite Hlt, Hrow. simpl. by destruct (chn_type chn).
Qed.

(** The chooser has no graph context, or the context has no viewer. *)
Lemma enter_no_view fuel n w chn :
  IS_SEL n = true →
  n ≤ Z.of_nat (length (ch_nodes (chooser w))) →
  ch_nodes (chooser w) !! Z.to_nat ((n - 1) `mod` 2 ^ 32) = Some chn →
  chn_type chn ≠ chnt_gm →
  no_view w →
  enter IS_SEL p fuel n w = Done w.
Proof.
  intros Hsel Hn Hrow Hty Hno.
  rewrite (enter_guard_passed n w chn Hsel Hn Hrow).
  unfold no_view in Hno.
  destruct (chn_type chn); [done| |];
    (destruct (gr (chooser w)) as [a|]; [|done]);
    (destruct (graphs w !! a) as [g|]; [|done]); simpl;
    by rewrite Hno.
Qed.

(** C10: when a group row or a list row is entered while the chooser's
    [gr] is NULL, or while the graph context it points to has a NULL
    [gv], [enter] returns with the program state exactly as it was: the
    highlight map is neither cleared nor written, no colour is drawn and
    no refresh is requested. *)
Theorem enter_without_view_is_noop fuel n w chn :
  IS_SEL n = true →
  n ≤ Z.of_nat (length (ch_nodes (chooser w))) →
  ch_nodes (chooser w) !! Z.to_nat ((n - 1) `mod` 2 ^ 32) = Some chn →
  chn_type chn = chnt_gd ∨ chn_type chn = chnt_nl →
  gr (chooser w) = None ∨
    (∃ a g,
       gr (chooser w) = Some a ∧ graphs w !! a = Some g ∧ gv g = None) →
  enter IS_SEL p fuel n w = Done w.
Proof.
  intros Hsel Hn Hrow Hty Hno.
  apply (enter_no_view fuel n w chn Hsel Hn Hrow).
  - destruct Hty as [-> | ->]; done.
  - unfold no_view. destruct Hno as [-> | (a & g & -> & -> & Hgv)]; done.
Qed.

Lemma deref_nl_graphs w m ptr :
  deref_nl (set_graphs m w) ptr = deref_nl w ptr.
Proof. done. Qed.

(** C5, as the code has it: when a list row is entered while the chooser
    has a graph context with a viewer, and the palette is not empty,
    [enter] clears the highlight map, draws one colour with
    [get_color_anyway], gives that one colour, which is not 0, to every
    node id of the row's node definition list, and requests one refresh of
    the viewer; the highlight map then holds exactly the ids of the list,
    all with that colour, and nothing else of the program state has
    changed. *)
Theorem enter_list_row_one_colour fuel n w chn l a g v :
  ColorGen.nonempty p →
  (2 ≤ fuel)%nat →
  IS_SEL n = true →
  n ≤ Z.of_nat (length (ch_nodes (chooser w))) →
  ch_nodes (chooser w) !! Z.to_nat ((n - 1) `mod` 2 ^ 32) = Some chn →
  chn_type chn = chnt_nl →
  deref_nl w (chn_nl chn) = Done l →
  gr (chooser w) = Some a →
  graphs w !! a = Some g →
  gv g = Some v →
  ∃ clr cg' cv' w' g',
    ColorGen.get_color_anyway p fuel
      (ColorGen.get_colorvar p ColorGen.cg_new ColorGen.cv_new).1.2
      (ColorGen.get_colorvar p ColorGen.cg_new ColorGen.cv_new).2
      = Some (clr, cg', cv') ∧
    clr ≠ 0 ∧
    enter IS_SEL p fuel n w = Done w' ∧
    graphs w' !! a = Some g' ∧
    (∀ k, sel_nodes g' !! k
          = if bool_decide (k ∈ nid <$> l) then Some clr else None) ∧
    g' = set_sel_nodes (sel_nodes g') g ∧
    (∀ b, b ≠ a → graphs w' !! b = graphs w !! b) ∧
    refreshed w' = refreshed w ++ [Some v] ∧
    chooser w' = chooser w ∧ groupmans w' = groupmans w ∧
    output w' = output w.
Proof.
  intros Hne Hf Hsel Hn Hrow Hty Hl Hgr Hg Hgv.
  rewrite (enter_guard_passed n w chn Hsel Hn Hrow).
  rewrite Hty, Hgr. simpl. rewrite Hg. simpl. rewrite Hgv.
  unfold clear_sel_nodes. rewrite Hgr. simpl. rewrite Hg. simpl.
  destruct (ColorGen.get_colorvar p ColorGen.cg_new ColorGen.cv_new)
    as [[ok cg1] cv1]. simpl.
  destruct (color_anyway_total fuel cg1 cv1 Hne Hf)
    as (clr & cg' & cv' & Hsome & Hdone & Hz).
  rewrite Hdone. simpl. rewrite deref_nl_graphs, Hl. simpl.
  erewrite paint_list_ok; [|exact Hgr|simpl; apply lookup_insert_eq].
  simpl. rewrite Hgr. simpl. rewrite insert_insert_eq, lookup_insert_eq. simpl.
  exists clr, cg', cv'. eexists _, _.
  split; [exact Hsome|]. split; [exact Hz|]. split; [done|]. simpl.
  split; [apply lookup_insert_eq|].
  split.
  { intros k. pose proof (painted_lookup clr l ∅ k) as Hk.
    rewrite lookup_empty in Hk. exact Hk. }
  split; [done|].
  split; [intros b Hb; by apply lookup_insert_ne|].
  rewrite Hgv. done.
Qed.

Lemma set_sel_nodes_twice m m' g :
  set_sel_nodes m (set_sel_nodes m' g) = set_sel_nodes m g.
Proof. done. Qed.

Lemma set_graphs_twice m m' w : set_graphs m (set_graphs m' w) = set_graphs m w.
Proof. done. Qed.

(** The loop over the lists of one group gives every node of these lists a
    colour and leaves the highlight of every other node as it was. *)
Lemma paint_lists_ok fuel a ngl :
  ColorGen.nonempty p → (2 ≤ fuel)%nat →
  ∀ cg cv w g,
    gr (chooser w) = Some a →
    graphs w !! a = Some g →
    ∃ cg' cv' m',
      paint_lists p fuel ngl cg cv w
        = Done (cg', cv',
                set_graphs (<[a := set_sel_nodes m' g]> (graphs w)) w) ∧
      (∀ k, k ∈ nid <$> concat ngl → is_Some (m' !! k)) ∧
      (∀ k, k ∉ nid <$> concat ngl → m' !! k = sel_nodes g !! k).
Proof.
  intros Hne Hf. induction ngl as [|nl ngl IH]; intros cg cv w g Hgr Hg.
  - exists cg, cv, (sel_nodes g). cbn [paint_lists].
    rewrite set_sel_nodes_same, insert_id, set_graphs_same by done.
    split; [done|]. split; [|done].
    intros k Hk. cbn in Hk. by apply not_elem_of_nil in Hk.
  - cbn [paint_lists].
    destruct (color_anyway_total fuel cg cv Hne Hf)
      as (clr & cg1 & cv1 & _ & Hdone & _).
    rewrite Hdone. cbn [mbind outcome_bind].
    rewrite (paint_list_ok clr nl w a g Hgr Hg). cbn [mbind outcome_bind].
    set (g1 := set_sel_nodes (painted clr nl (sel_nodes g)) g).
    set (w1 := set_graphs (<[a:=g1]> (graphs w)) w).
    destruct (IH cg1 cv1 w1 g1) as (cg' & cv' & m' & Hrun & Hin & Hout).
    { exact Hgr. }
    { apply lookup_insert_eq. }
    exists cg', cv', m'. split.
    + rewrite Hrun. subst w1 g1. cbn [graphs set_graphs].
      by rewrite insert_insert_eq, set_sel_nodes_twice, set_graphs_twice.
    + cbn [concat]. split.
      * intros k Hk. rewrite fmap_app, elem_of_app in Hk.
        destruct (decide (k ∈ nid <$> concat ngl)) as [Hr|Hr];
          [by apply Hin|].
        destruct Hk as [Hk|Hk]; [|done].
        rewrite (Hout k Hr). subst g1. cbn [sel_nodes set_sel_nodes].
        rewrite painted_lookup, bool_decide_eq_true_2 by done. by eexists.
      * intros k Hk. rewrite fmap_app, elem_of_app in Hk.
        rewrite Hout by tauto. subst g1. cbn [sel_nodes set_sel_nodes].
        rewrite painted_lookup, bool_decide_eq_false_2 by tauto. done.
Qed.

Lemma reachable_ids_cons gd gds :
  reachable_ids (gd :: gds)
    = (nid <$> concat (nodegroups gd)) ++ reachable_ids gds.
Proof.
  unfold reachable_ids. rewrite fmap_cons. cbn [concat].
  by rewrite concat_app, fmap_app.
Qed.

(** The loop over all groups gives every node the groups reach a colour and
    leaves the highlight of every other node as it was. *)
Lemma paint_groups_ok fuel a gds :
  ColorGen.nonempty p → (2 ≤ fuel)%nat →
  ∀ cg cv w g,
    gr (chooser w) = Some a →
    graphs w !! a = Some g →
    ∃ m',
      paint_groups p fuel gds cg cv w
        = Done (set_graphs (<[a := set_sel_nodes m' g]> (graphs w)) w) ∧
      (∀ k, k ∈ reachable_ids gds → is_Some (m' !! k)) ∧
      (∀ k, k ∉ reachable_ids gds → m' !! k = sel_nodes g !! k).
Proof.
  intros Hne Hf. induction gds as [|gd gds IH]; intros cg cv w g Hgr Hg.
  - exists (sel_nodes g). cbn [paint_groups].
    rewrite set_sel_nodes_same, insert_id, set_graphs_same by done.
    split; [done|]. split; [|done].
    intros k Hk. cbn in Hk. by apply not_elem_of_nil in Hk.
  - cbn [paint_groups].
    destruct (ColorGen.get_colorvar p cg cv) as [[ok cg1] cv1].
    destruct (paint_lists_ok fuel a (nodegroups gd) Hne Hf cg1 cv1 w g Hgr Hg)
      as (cg2 & cv2 & m1 & Hrun1 & Hin1 & Hout1).
    rewrite Hrun1. cbn [mbind outcome_bind].
    set (g1 := set_sel_nodes m1 g).
    set (w1 := set_graphs (<[a:=g1]> (graphs w)) w).
    destruct (IH cg2 cv2 w1 g1) as (m' & Hrun & Hin & Hout).
    { exact Hgr. }
    { apply lookup_insert_eq. }
    exists m'. split.
    + rewrite Hrun. subst w1 g1. cbn [graphs set_graphs].
      by rewrite insert_insert_eq, set_sel_nodes_twice, set_graphs_twice.
    + split.
      * intros k Hk. rewrite reachable_ids_cons, elem_of_app in Hk.
        destruct (decide (k ∈ reachable_ids gds)) as [Hr|Hr]; [by apply Hin|].
        destruct Hk as [Hk|Hk]; [|done].
        rewrite (Hout k Hr). subst g1. cbn [sel_nodes set_sel_nodes].
        by apply Hin1.
      * intros k Hk. rewrite reachable_ids_cons, elem_of_app in Hk.
        rewrite Hout by tauto. subst g1. cbn [sel_nodes set_sel_nodes].
        apply Hout1. tauto.
Qed.

(** X1: what entering the file row does while a graph context is there and
    the palette is not empty: every node id the tree reaches gets a colour,
    the highlight of every other node id stays as it was, and no refresh is
    requested. *)
Lemma enter_file_row_paints fuel n w chn t a g :
  ColorGen.nonempty p →
  (2 ≤ fuel)%nat →
  IS_SEL n = true →
  n ≤ Z.of_nat (length (ch_nodes (chooser w))) →
  ch_nodes (chooser w) !! Z.to_nat ((n - 1) `mod` 2 ^ 32) = Some chn →
  chn_type chn = chnt_gm →
  deref_gm w (gm (chooser w)) = Done t →
  gr (chooser w) = Some a →
  graphs w !! a = Some g →
  ∃ w' g',
    enter IS_SEL p fuel n w = Done w' ∧
    graphs w' !! a = Some g' ∧
    (∀ k, k ∈ reachable_ids (groups t) → is_Some (sel_nodes g' !! k)) ∧
    (∀ k, k ∉ reachable_ids (groups t) →
          sel_nodes g' !! k = sel_nodes g !! k) ∧
    refreshed w' = refreshed w.
Proof.
  intros Hne Hf Hsel Hn Hrow Hty Ht Hgr Hg.
  rewrite (enter_guard_passed n w chn Hsel Hn Hrow), Hty, Ht.
  cbn [mbind outcome_bind].
  destruct (paint_groups_ok fuel a (groups t) Hne Hf
              ColorGen.cg_new ColorGen.cv_new w g Hgr Hg)
    as (m' & Hrun & Hin & Hout).
  rewrite Hrun. eexists _, _. split; [done|].
  split; [apply lookup_insert_eq|]. done.
Qed.

End EnterFacts.

(** ** Selecting after the graph view was closed *)

Section Teardown.
Variable mutable_graph_t : Type.
Variable func_to_mgraph :
  Z → mutable_graph_t → gmap Z gnode_t → mutable_graph_t * gmap Z gnode_t.
Variable IS_SEL : Z → bool.
Variable p : ColorGen.palette.

(** X5: once the destroy notification of the chooser's graph context,
    whose [parent_ref] points at the chooser's [gr], has been handled,
    entering a group row or a list row changes nothing. *)
Lemma enter_after_destroy_is_noop fuel n w a g w' chn :
  gr (chooser w) = Some a →
  graphs w !! a = Some g →
  parent_ref g = Some ref_chooser_gr →
  gr_callback mutable_graph_t func_to_mgraph a grcode_destroyed w
    = Done (1, reply_none, w') →
  IS_SEL n = true →
  n ≤ Z.of_nat (length (ch_nodes (chooser w'))) →
  ch_nodes (chooser w') !! Z.to_nat ((n - 1) `mod` 2 ^ 32) = Some chn →
  chn_type chn ≠ chnt_gm →
  enter IS_SEL p fuel n w' = Done w'.
Proof.
  intros Hgr Hg Hpar Hcb Hsel Hn Hrow Hty.
  apply (enter_no_view IS_SEL p fuel n w' chn Hsel Hn Hrow Hty).
  unfold gr_callback in Hcb. cbn in Hcb. rewrite Hg in Hcb. cbn in Hcb.
  unfold destroyed_fields in Hcb. rewrite Hpar in Hcb.
  injection Hcb as <-. unfold no_view. done.
Qed.

End Teardown.

(** ** The properties on the sample host *)

Section SampleRuns.
Import Sample.

Lemma get_color_anyway_terminates_witness :
  (∃ clr cg' cv',
     ColorGen.get_color_anyway pal 2 ColorGen.cg_new ColorGen.cv_new
       = Some (clr, cg', cv') ∧ clr ≠ 0) ∧
  ColorGen.get_color_anyway no_pal 9 ColorGen.cg_new ColorGen.cv_new = None.
Proof.
  split.
  - apply (proj1 (get_color_anyway_terminates pal)).
    split; simpl; lia.
  - apply (proj2 (get_color_anyway_terminates no_pal)).
    + left. reflexivity.
    + exact I.
Defined.

Lemma two_nodes_nonempty : two_nodes ≠ ∅.
Proof.
  intros H. apply (f_equal (fun m : gmap Z gnode_t => m !! 0)) in H.
  vm_compute in H. discriminate H.
Defined.

Lemma soft_pulls_keep_node_map_witness :
  gr_callback unit conv 2%positive (grcode_user_refresh unit tt) (w_built ∅)
    = Done (1, reply_graph unit tt, w_built ∅) ∧
  draw_pulls unit conv 5 2%positive tt (w_built ∅) = Done (tt, w_built ∅).
Proof.
  apply (soft_pulls_keep_node_map unit conv 2%positive (w_built ∅)
           (graph_built ∅) tt 5).
  - reflexivity.
  - exact two_nodes_nonempty.
  - reflexivity.
Defined.

(** C2 fails as stated: on the sample host the list row of node 99 is
    entered before the first draw pull; the pull then builds the node map
    with the nodes 0 and 1 and leaves the highlight of node 99 in place,
    so the highlight map holds an id the node map does not hold. *)
Lemma rebuild_pull_leaves_stale_highlight :
  ∃ w1 w2 g2,
    enter is_sel pal 2 3 (w_shown ∅) = Done w1 ∧
    gr_callback unit conv 2%positive (grcode_user_refresh unit tt) w1
      = Done (1, reply_graph unit tt, w2) ∧
    graphs w2 !! 2%positive = Some g2 ∧
    node_map g2 = two_nodes ∧
    sel_nodes g2 !! 99 = Some 1 ∧
    node_map g2 !! 99 = None.
Proof.
  eexists _, _, _.
  split; [vm_compute; reflexivity|].
  split; [vm_compute; reflexivity|].
  split; [vm_compute; reflexivity|].
  split; [reflexivity|].
  split; vm_compute; reflexivity.
Qed.

Lemma rebuild_pull_keeps_highlight_witness :
  ∃ w' g',
    gr_callback unit conv 2%positive (grcode_user_refresh unit tt)
                (w_shown {[99 := 1]})
      = Done (1, reply_graph unit tt, w') ∧
    graphs w' !! 2%positive = Some g' ∧
    node_map g' = two_nodes ∧
    sel_nodes g' = {[99 := 1]}.
Proof.
  destruct (rebuild_pull_keeps_highlight unit conv 2%positive
              (w_shown {[99 := 1]}) (graph_a {[99 := 1]}) tt)
    as (w' & g' & H1 & H2 & H3 & H4 & _).
  - reflexivity.
  - left. reflexivity.
  - exists w', g'. split; [exact H1|]. split; [exact H2|].
    split; [exact H3 | exact H4].
Defined.

(** C9 fails as stated: the first destroy notification releases the
    context at address 2; a second one for the same context finds it
    released when it goes to write [gv] and [form]. *)
Lemma second_destroy_reaches_released_context :
  ∃ w1,
    gr_callback unit conv 2%positive grcode_destroyed (w_shown ∅)
      = Done (1, reply_none, w1) ∧
    graphs w1 !! 2%positive = None ∧
    gr_callback unit conv 2%positive grcode_destroyed w1 = Fault.
Proof.
  eexists. split; [vm_compute; reflexivity|].
  split; vm_compute; reflexivity.
Qed.

Lemma destroy_live_context_witness :
  ∃ w',
    gr_callback unit conv 2%positive grcode_destroyed (w_shown ∅)
      = Done (1, reply_none, w') ∧
    graphs w' !! 2%positive = None ∧
    gr (chooser w') = None.
Proof.
  destruct (destroy_live_context unit conv 2%positive (w_shown ∅)
              (graph_a ∅))
    as (w1 & g1 & w' & _ & _ & _ & _ & H1 & _ & H2 & _ & H3 & _).
  - reflexivity.
  - exists w'. split; [exact H1|]. split; [exact H2 | exact H3].
Defined.

(** A file that does not parse is loaded while [a.bbgroup] is in use at
    address 1; [load_file] returns [false], and the tree at address 1 is
    released although the three rows that point into it are still
    there. *)
Lemma parse_failure_releases_loaded_tree :
  ∃ w',
    load_file parse "missing.bbgroup" (w_shown ∅) = Done (false, w') ∧
    groupmans (w_shown ∅) !! 1%positive = Some tree_a ∧
    groupmans w' !! 1%positive = None ∧
    ch_nodes (chooser w') = rows_a ∧
    deref_nl (w_shown ∅) (Some (1%positive, 0%nat, 0%nat))
      = Done [NodeDef 99 4096 4112] ∧
    deref_nl w' (Some (1%positive, 0%nat, 0%nat)) = Fault.
Proof.
  eexists. split; [vm_compute; reflexivity|].
  repeat split; vm_compute; reflexivity.
Qed.

Lemma load_file_parse_failure_witness :
  ∃ w',
    load_file parse "missing.bbgroup" (w_shown ∅) = Done (false, w') ∧
    output w' = [parse_error "missing.bbgroup"] ∧
    ch_nodes (chooser w') = rows_a ∧
    groupmans w' !! 1%positive = None.
Proof.
  destruct (load_file_parse_failure parse "missing.bbgroup" (w_shown ∅)
              groupman_new)
    as (w' & H1 & H2 & H3 & H4 & _).
  - simpl. exists tree_a. reflexivity.
  - reflexivity.
  - exists w'. split; [exact H1|]. split; [exact H2|]. split; [exact H3|].
    apply H4. reflexivity.
Defined.

(** C4 evaluated: [b.bbgroup] is loaded while the rows of [a.bbgroup]
    are in the chooser; the four rows of the new tree come after the three
    old rows, which stay and point into the released tree. *)
Theorem reload_keeps_old_rows :
  ∃ w',
    load_file parse "b.bbgroup" (w_shown ∅) = Done (true, w') ∧
    ch_nodes (chooser w') = rows_a ++ preorder_rows 3%positive tree_b ∧
    ch_nodes (chooser w') ≠ preorder_rows 3%positive tree_b ∧
    sizer w' = 7%nat ∧ row_count tree_b = 4%nat ∧
    groupmans w' !! 1%positive = None ∧
    deref_nl w' (Some (1%positive, 0%nat, 0%nat)) = Fault.
Proof.
  eexists. split; [vm_compute; reflexivity|].
  split; [vm_compute; reflexivity|].
  split; [vm_compute; discriminate|].
  repeat split; vm_compute; reflexivity.
Qed.

Lemma load_file_rows_preorder_witness :
  ∃ w',
    load_file parse "b.bbgroup" w_fresh = Done (true, w') ∧
    ch_nodes (chooser w') = preorder_rows 1%positive tree_b ∧
    sizer w' = 4%nat.
Proof.
  destruct (load_file_rows_preorder parse "b.bbgroup" w_fresh tree_b)
    as (w' & H1 & H2 & _ & H3).
  - exact I.
  - reflexivity.
  - reflexivity.
  - exists w'. split; [exact H1|]. split; [exact H2 | exact H3].
Defined.

(** C5 fails as stated: the list row of node 99 is entered while the
    graph context has no viewer; nothing happens, the highlight map keeps
    node 7 and node 99 gets no colour. *)
Lemma enter_list_row_without_viewer :
  ch_nodes (chooser (w_blind {[7 := 5]})) !! 2%nat
    = Some (row_nl 1%positive 0 0) ∧
  deref_nl (w_blind {[7 := 5]}) (chn_nl (row_nl 1%positive 0 0))
    = Done [NodeDef 99 4096 4112] ∧
  ∃ w' g',
    enter is_sel pal 2 3 (w_blind {[7 := 5]}) = Done w' ∧
    graphs w' !! 2%positive = Some g' ∧
    sel_nodes g' !! 99 = None ∧
    sel_nodes g' !! 7 = Some 5.
Proof.
  split; [reflexivity|]. split; [reflexivity|].
  eexists _, _. split; [vm_compute; reflexivity|].
  split; [vm_compute; reflexivity|].
  split; vm_compute; reflexivity.
Qed.

Lemma enter_list_row_one_colour_witness :
  ∃ w' g',
    enter is_sel pal 2 3 (w_shown {[7 := 5]}) = Done w' ∧
    graphs w' !! 2%positive = Some g' ∧
    sel_nodes g' !! 99 = Some 1 ∧
    sel_nodes g' !! 7 = None ∧
    refreshed w' = [Some 7%positive].
Proof.
  destruct (enter_list_row_one_colour is_sel pal 2 3 (w_shown {[7 := 5]})
              (row_nl 1%positive 0 0) [NodeDef 99 4096 4112] 2%positive
              (graph_a {[7 := 5]}) 7%positive)
    as (clr & cg' & cv' & w' & g' & H1 & _ & H2 & H3 & H4 & _ & _ & H5 & _).
  - split; simpl; lia.
  - lia.
  - reflexivity.
  - simpl. lia.
  - reflexivity.
  - reflexivity.
  - reflexivity.
  - reflexivity.
  - reflexivity.
  - reflexivity.
  - exists w', g'. split; [exact H2|]. split; [exact H3|].
    vm_compute in H1. injection H1 as <- _ _.
    split; [exact (H4 99)|]. split; [exact (H4 7) | exact H5].
Defined.

Lemma enter_without_view_is_noop_witness :
  enter is_sel pal 2 3 (w_blind {[7 := 5]}) = Done (w_blind {[7 := 5]}).
Proof.
  apply (enter_without_view_is_noop is_sel pal 2 3 (w_blind {[7 := 5]})
           (row_nl 1%positive 0 0)).
  - reflexivity.
  - simpl. lia.
  - reflexivity.
  - right. reflexivity.
  - right. exists 2%positive, (graph_blind {[7 := 5]}).
    split; [reflexivity|]. split; reflexivity.
Defined.

(** C1 evaluated: the list row of [a.bbgroup] is entered, which colours
    node 99; [b.bbgroup] is loaded and its file row, now row 4, is
    entered.  The nodes 1, 2 and 3 of the new tree get their colours, the
    highlight of node 99 stays although no tree in use holds that node,
    and no refresh is requested.  And when the file row is entered after
    the graph view was closed, the write to the highlight map goes
    through the NULL [gr]. *)
Theorem enter_file_row_keeps_stale_highlight :
  (∃ w1 w2 w3 g3,
     enter is_sel pal 2 3 (w_shown ∅) = Done w1 ∧
     load_file parse "b.bbgroup" w1 = Done (true, w2) ∧
     ch_nodes (chooser w2) !! 3%nat = Some (row_gm 3%positive) ∧
     deref_gm w2 (gm (chooser w2)) = Done tree_b ∧
     enter is_sel pal 2 4 w2 = Done w3 ∧
     graphs w3 !! 2%positive = Some g3 ∧
     sel_nodes g3 = {[99 := 1; 1 := 1; 2 := 1; 3 := 2]} ∧
     refreshed w3 = refreshed w2) ∧
  (∃ w1,
     gr_callback unit conv 2%positive grcode_destroyed (w_shown ∅)
      = Done (1, reply_none, w1) ∧
     gr (chooser w1) = None ∧
     enter is_sel pal 2 1 w1 = Fault ∧
     enter is_sel pal 2 2 w1 = Done w1 ∧ enter is_sel pal 2 3 w1 = Done w1).
Proof.
  split.
  - eexists _, _, _, _.
    split; [vm_compute; reflexivity|].
    split; [vm_compute; reflexivity|].
    split; [vm_compute; reflexivity|].
    split; [vm_compute; reflexivity|].
    split; [vm_compute; reflexivity|].
    split; [vm_compute; reflexivity|].
    split; vm_compute; reflexivity.
  - eexists. split; [vm_compute; reflexivity|].
    repeat split; vm_compute; reflexivity.
Qed.

(** Four colours are drawn without a repeat, the fifth is the first one
    again: the cycle rewinds. *)
Example colour_cycle_rewinds :
  ColorGen.draw_colours pal 5 ColorGen.cg_new ColorGen.cv_new
    = [1; 2; 11; 12; 1].
Proof. reflexivity. Qed.

(** After a failed load the chooser's [gm] still holds the address of the
    tree that was released on the way out; the next load starts with
    [delete gm] on it. *)
Example load_after_failed_load :
  ∃ w1,
    load_file parse "missing.bbgroup" w_fresh = Done (false, w1) ∧
    gm (chooser w1) = Some 1%positive ∧
    groupmans w1 !! 1%positive = None ∧
    load_file parse "a.bbgroup" w1 = Fault.
Proof.
  eexists. split; [vm_compute; reflexivity|].
  repeat split; vm_compute; reflexivity.
Qed.

End SampleRuns.

(** ** What a selection leaves alone *)

Section FrameFacts.
Variable IS_SEL : Z → bool.
Variable p : ColorGen.palette.

Lemma bind_Done {A B : Type} (m : outcome A) (k : A → outcome B) y :
  m ≫= k = Done y → ∃ x, m = Done x ∧ k x = Done y.
Proof. destruct m as [x| |]; [by exists x | done | done]. Qed.

Lemma only_highlight_refl w : only_highlight w w.
Proof.
  repeat split. intros a. destruct (graphs w !! a) as [g|]; [|done].
  split; [by rewrite set_sel_nodes_same | done].
Qed.

Lemma only_highlight_trans w1 w2 w3 :
  only_highlight w1 w2 → only_highlight w2 w3 → only_highlight w1 w3.
Proof.
  intros (Hm1 & Hc1 & Ho1 & Hb1 & Hg1) (Hm2 & Hc2 & Ho2 & Hb2 & Hg2).
  unfold only_highlight. rewrite Hm2, Hc2, Ho2, Hb2.
  repeat split; try done.
  intros a. specialize (Hg1 a). specialize (Hg2 a). rewrite Hc1 in Hg2.
  destruct (graphs w1 !! a) as [g1|], (graphs w2 !! a) as [g2|],
    (graphs w3 !! a) as [g3|]; try done.
  destruct Hg1 as [E1 K1], Hg2 as [E2 K2]. split.
  - rewrite E2, E1. done.
  - intros Hne. rewrite (K2 Hne). by apply K1.
Qed.

Lemma only_highlight_write w a g m :
  gr (chooser w) = Some a →
  graphs w !! a = Some g →
  only_highlight w (set_graphs (<[a := set_sel_nodes m g]> (graphs w)) w).
Proof.
  intros Hgr Hg. repeat split. intros b. cbn [graphs set_graphs].
  destruct (decide (b = a)) as [->|Hne].
  - rewrite Hg, lookup_insert_eq. split; [done|]. by rewrite Hgr.
  - rewrite lookup_insert_ne by done.
    destruct (graphs w !! b) as [g0|]; [|done].
    split; [by rewrite set_sel_nodes_same | done].
Qed.

Lemma paint_node_frame clr nd w w' :
  paint_node clr nd w = Done w' →
  only_highlight w w' ∧ refreshed w' = refreshed w.
Proof.
  unfold paint_node. intros H.
  apply bind_Done in H as (a & Ha & H). apply bind_Done in H as (g & Hg & H).
  destruct (gr (chooser w)) as [a0|] eqn:Hgr; [|done]. injection Ha as ->.
  destruct (graphs w !! a) as [g0|] eqn:Hg0; [|done]. injection Hg as ->.
  cbn in H. injection H as <-. split; [|done].
  by apply only_highlight_write.
Qed.

Lemma paint_list_frame clr nl : ∀ w w',
  paint_list clr nl w = Done w' →
  only_highlight w w' ∧ refreshed w' = refreshed w.
Proof.
  induction nl as [|nd nl IH]; intros w w' H; cbn [paint_list] in H.
  - injection H as <-. split; [apply only_highlight_refl | done].
  - apply bind_Done in H as (w1 & H1 & H).
    apply paint_node_frame in H1 as [F1 R1]. apply IH in H as [F2 R2].
    split; [by eapply only_highlight_trans | congruence].
Qed.

Lemma paint_lists_frame fuel ngl : ∀ cg cv w cg' cv' w',
  paint_lists p fuel ngl cg cv w = Done (cg', cv', w') →
  only_highlight w w' ∧ refreshed w' = refreshed w.
Proof.
  induction ngl as [|nl ngl IH]; intros cg cv w cg' cv' w' H;
    cbn [paint_lists] in H.
  - injection H as <- <- <-. split; [apply only_highlight_refl | done].
  - apply bind_Done in H as ([[clr cg1] cv1] & _ & H).
    apply bind_Done in H as (w1 & H1 & H).
    apply paint_list_frame in H1 as [F1 R1]. apply IH in H as [F2 R2].
    split; [by eapply only_highlight_trans | congruence].
Qed.

Lemma paint_groups_frame fuel gds : ∀ cg cv w w',
  paint_groups p fuel gds cg cv w = Done w' →
  only_highlight w w' ∧ refreshed w' = refreshed w.
Proof.
  induction gds as [|gd gds IH]; intros cg cv w w' H; cbn [paint_groups] in H.
  - injection H as <-. split; [apply only_highlight_refl | done].
  - destruct (ColorGen.get_colorvar p cg cv) as [[ok cg1] cv1].
    apply bind_Done in H as ([[cg2 cv2] w1] & H1 & H).
    apply paint_lists_frame in H1 as [F1 R1]. apply IH in H as [F2 R2].
    split; [by eapply only_highlight_trans | congruence].
Qed.

Lemma clear_sel_nodes_frame w w' :
  clear_sel_nodes w = Done w' →
  only_highlight w w' ∧ refreshed w' = refreshed w.
Proof.
  unfold clear_sel_nodes. intros H.
  apply bind_Done in H as (a & Ha & H). apply bind_Done in H as (g & Hg & H).
  destruct (gr (chooser w)) as [a0|] eqn:Hgr; [|done]. injection Ha as ->.
  destruct (graphs w !! a) as [g0|] eqn:Hg0; [|done]. injection Hg as ->.
  cbn in H. injection H as <-. split; [|done].
  by apply only_highlight_write.
Qed.

Lemma enter_frame_aux fuel n w w' :
  enter IS_SEL p fuel n w = Done w' →
  only_highlight w w' ∧
  (refreshed w' = refreshed w ∨ ∃ v, refreshed w' = refreshed w ++ [v]).
Proof.
  unfold enter. intros H.
  destruct (negb (IS_SEL n) || (Z.of_nat (length (ch_nodes (chooser w))) <? n)).
  { injection H as <-. split; [apply only_highlight_refl | by left]. }
  apply bind_Done in H as (chn & _ & H).
  assert (Hview :
    match gr (chooser w) with
    | None => Done w
    | Some a =>
        g ← of_option (graphs w !! a);
        match gv g with
        | None => Done w
        | Some _ =>
            w1 ← clear_sel_nodes w;
            let '(_, cg1, cv1) :=
              ColorGen.get_colorvar p ColorGen.cg_new ColorGen.cv_new in
            w2 ← match chn_type chn with
                 | chnt_nl =>
                     '(clr, _, _) ← color_anyway p fuel cg1 cv1;
                     l ← deref_nl w1 (chn_nl chn);
                     paint_list clr l w1
                 | _ =>
                     ngl ← deref_ngl w1 (chn_ngl chn);
                     '(_, _, w') ← paint_lists p fuel ngl cg1 cv1 w1;
                     Done w'
                 end;
            a' ← of_option (gr (chooser w2));
            g' ← of_option (graphs w2 !! a');
            Done (refresh_viewer (gv g') w2)
        end
    end = Done w' →
    only_highlight w w' ∧
    (refreshed w' = refreshed w ∨ ∃ v, refreshed w' = refreshed w ++ [v])).
  { clear H. intros H.
    destruct (gr (chooser w)) as [a|];
      [|injection H as <-; split; [apply only_highlight_refl | by left]].
    apply bind_Done in H as (g & _ & H).
    destruct (gv g) as [v|];
      [|injection H as <-; split; [apply only_highlight_refl | by left]].
    apply bind_Done in H as (w1 & H1 & H).
    apply clear_sel_nodes_frame in H1 as [F1 R1].
    destruct (ColorGen.get_colorvar p ColorGen.cg_new ColorGen.cv_new)
      as [[ok cg1] cv1].
    apply bind_Done in H as (w2 & H2 & H).
    assert (F2 : only_highlight w1 w2 ∧ refreshed w2 = refreshed w1).
    { destruct (chn_type chn).
      - apply bind_Done in H2 as (ngl & _ & H2).
        apply bind_Done in H2 as ([[cg2 cv2] w3] & H3 & H2).
        injection H2 as <-. by eapply paint_lists_frame.
      - apply bind_Done in H2 as (ngl & _ & H2).
        apply bind_Done in H2 as ([[cg2 cv2] w3] & H3 & H2).
        injection H2 as <-. by eapply paint_lists_frame.
      - apply bind_Done in H2 as ([[clr cg2] cv2] & _ & H2).
        apply bind_Done in H2 as (l & _ & H2).
        by eapply paint_list_frame. }
    destruct F2 as [F2 R2].
    apply bind_Done in H as (a' & _ & H). apply bind_Done in H as (g' & _ & H).
    injection H as <-. split.
    - destruct (only_highlight_trans _ _ _ F1 F2) as (? & ? & ? & ? & ?).
      repeat split; done.
    - right. exists (gv g'). cbn. congruence. }
  destruct (chn_type chn); [|by apply Hview|by apply Hview].
  apply bind_Done in H as (t & _ & H).
  apply paint_groups_frame in H as [F R]. split; [done | by left].
Qed.

(** X3: whenever [enter] returns, the group trees, the chooser (rows, [gr],
    [gm]), the messages and the address counter are as before; no graph
    context is created or released, and every context is as before except
    for the highlight map of the context the chooser's [gr] points to; at
    most one refresh request was added. *)
Theorem enter_only_writes_highlight fuel n w w' :
  enter IS_SEL p fuel n w = Done w' →
  only_highlight w w' ∧
  (refreshed w' = refreshed w ∨ ∃ v, refreshed w' = refreshed w ++ [v]).
Proof. apply enter_frame_aux. Qed.

End FrameFacts.

(** ** Runs of callbacks *)

Section RunFacts.
Variable mutable_graph_t : Type.
Variable func_to_mgraph :
  Z → mutable_graph_t → gmap Z gnode_t → mutable_graph_t * gmap Z gnode_t.
Variable IS_SEL : Z → bool.
Variable parse : string → groupman_t → bool * groupman_t.
Variable p : ColorGen.palette.

Lemma contexts_evolve_refl (R : grdata_t → grdata_t → Prop) w :
  (∀ g, R g g) → contexts_evolve R w w.
Proof. intros HR a. destruct (graphs w !! a); [apply HR | done]. Qed.

Lemma contexts_evolve_trans (R : grdata_t → grdata_t → Prop) w1 w2 w3 :
  (∀ g1 g2 g3, R g1 g2 → R g2 g3 → R g1 g3) →
  contexts_evolve R w1 w2 → contexts_evolve R w2 w3 →
  contexts_evolve R w1 w3.
Proof.
  intros HR H12 H23 a. specialize (H12 a). specialize (H23 a).
  destruct (graphs w1 !! a), (graphs w2 !! a), (graphs w3 !! a); try done.
  by eapply HR.
Qed.

Lemma contexts_evolve_same (R : grdata_t → grdata_t → Prop) w w' :
  (∀ g, R g g) → graphs w' = graphs w → contexts_evolve R w w'.
Proof.
  intros HR E a. rewrite E. destruct (graphs w !! a); [apply HR | done].
Qed.

Lemma build_kept_refl g : build_kept g g.
Proof. by split. Qed.

Lemma build_kept_trans g1 g2 g3 :
  build_kept g1 g2 → build_kept g2 g3 → build_kept g1 g3.
Proof.
  intros [M1 N1] [M2 N2]. split; [congruence|].
  intros Hne Hm. rewrite <- (N1 Hne Hm). apply N2; [|congruence].
  by rewrite (N1 Hne Hm).
Qed.

Lemma highlight_kept_trans g1 g2 g3 :
  highlight_kept g1 g2 → highlight_kept g2 g3 → highlight_kept g1 g3.
Proof. unfold highlight_kept. congruence. Qed.

(** One event: contexts other than the addressed one are untouched or, on
    destroy, the addressed one goes; the addressed one keeps its highlight
    map and its refresh mode, and its node map unless a rebuild is due. *)
Lemma callback_contexts ud ev w r rep w' :
  gr_callback mutable_graph_t func_to_mgraph ud ev w = Done (r, rep, w') →
  contexts_evolve (fun g g' => highlight_kept g g' ∧ build_kept g g') w w'.
Proof.
  assert (Hrefl : ∀ g, highlight_kept g g ∧ build_kept g g) by done.
  assert (Hstore : ∀ g g',
    graphs w !! ud = Some g →
    highlight_kept g g' ∧ build_kept g g' →
    contexts_evolve (fun g g' => highlight_kept g g' ∧ build_kept g g')
      w (store_graph ud g' w)).
  { intros g g' Hg HR a. cbn [graphs store_graph set_graphs].
    destruct (decide (a = ud)) as [->|Hne].
    - by rewrite Hg, lookup_insert_eq.
    - rewrite lookup_insert_ne by done.
      destruct (graphs w !! a); [apply Hrefl | done]. }
  unfold gr_callback. intros H. destruct ev as [v node|mg|mg node b| |].
  - apply bind_Done in H as (g & Hg & H). injection H as ? ? ?; subst.
    destruct (graphs w !! ud) as [g0|] eqn:E; [|done]. injection Hg as ->.
    by apply (Hstore g).
  - apply bind_Done in H as (g & Hg & H).
    destruct (graphs w !! ud) as [g0|] eqn:E; [|done]. injection Hg as ->.
    destruct (bool_decide (node_map g = ∅) || (refresh_mode g =? rfm_rebuild))
      eqn:Hc.
    + destruct (func_to_mgraph (ea g) mg (node_map g)) as [mg' nm'].
      injection H as ? ? ?; subst. apply (Hstore g); [done|].
      split; [done|]. split; [done|]. intros Hne Hm. exfalso.
      apply orb_true_iff in Hc as [Hc|Hc].
      * by apply bool_decide_eq_true in Hc.
      * by apply Z.eqb_eq in Hc.
    + injection H as ? ? ?; subst. by apply contexts_evolve_refl.
  - apply bind_Done in H as (g & _ & H). apply bind_Done in H as (nd & _ & H).
    injection H as ? ? ?; subst. by apply contexts_evolve_refl.
  - apply bind_Done in H as (g & Hg & H). injection H as ? ? ?; subst.
    destruct (graphs w !! ud) as [g0|] eqn:E; [|done]. injection Hg as ->.
    intros a. unfold destroyed_fields.
    assert (Hgr : graphs
              match parent_ref g with
              | Some r0 =>
                  store_ref r0 None
                    (store_graph ud (set_form None (set_gv None g)) w)
              | None => store_graph ud (set_form None (set_gv None g)) w
              end = <[ud := set_form None (set_gv None g)]> (graphs w)).
    { by destruct (parent_ref g) as [[]|]. }
    cbn [graphs delete_graph set_graphs]. rewrite Hgr.
    destruct (decide (a = ud)) as [->|Hne].
    + rewrite lookup_delete_eq. by destruct (graphs w !! ud).
    + rewrite lookup_delete_ne, lookup_insert_ne by done.
      destruct (graphs w !! a); [apply Hrefl | done].
  - injection H as ? ? ?; subst. by apply contexts_evolve_refl.
Qed.

Lemma load_file_graphs filename w b w' :
  load_file parse filename w = Done (b, w') → graphs w' = graphs w.
Proof.
  unfold load_file. intros H. apply bind_Done in H as (w1 & H1 & H).
  assert (E1 : graphs w1 = graphs w).
  { unfold delete_groupman in H1. destruct (gm (chooser w)) as [a|].
    - apply bind_Done in H1 as (t & _ & H1). by injection H1 as <-.
    - by injection H1 as <-. }
  unfold new_groupman in H. cbn in H.
  destruct (parse filename groupman_new) as [[] t]; cbn in H.
  - injection H as _ <-. done.
  - rewrite lookup_insert_eq in H. cbn in H. injection H as _ <-. done.
Qed.

Lemma enter_contexts fuel n w w' :
  enter IS_SEL p fuel n w = Done w' →
  contexts_evolve build_kept w w'.
Proof.
  intros H. apply enter_frame_aux in H as [(_ & _ & _ & _ & Hg) _].
  intros a. specialize (Hg a).
  destruct (graphs w !! a) as [g|], (graphs w' !! a) as [g'|]; try done.
  destruct Hg as [-> _]. by split.
Qed.

Lemma perform_build_kept fuel act w w' :
  perform mutable_graph_t func_to_mgraph IS_SEL parse p fuel act w = Done w' →
  contexts_evolve build_kept w w'.
Proof.
  destruct act as [n|sel|filename|ud ev]; cbn [perform]; intros H.
  - by eapply enter_contexts.
  - unfold select in H. apply bind_Done in H as (n & _ & H).
    by eapply enter_contexts.
  - apply bind_Done in H as ([b w1] & H1 & H). injection H as <-.
    apply contexts_evolve_same; [apply build_kept_refl|].
    by eapply load_file_graphs.
  - apply bind_Done in H as ([[r rep] w1] & H1 & H). injection H as ->.
    apply callback_contexts in H1. intros a. specialize (H1 a).
    destruct (graphs w !! a), (graphs w' !! a); try done. apply H1.
Qed.

Lemma perform_highlight_kept fuel act w w' :
  no_selection mutable_graph_t act →
  perform mutable_graph_t func_to_mgraph IS_SEL parse p fuel act w = Done w' →
  contexts_evolve highlight_kept w w'.
Proof.
  destruct act as [n|sel|filename|ud ev]; cbn [perform no_selection];
    intros Hno H; try done.
  - apply bind_Done in H as ([b w1] & H1 & H). injection H as <-.
    apply contexts_evolve_same; [done|]. by eapply load_file_graphs.
  - apply bind_Done in H as ([[r rep] w1] & H1 & H). injection H as ->.
    apply callback_contexts in H1. intros a. specialize (H1 a).
    destruct (graphs w !! a), (graphs w' !! a); try done. apply H1.
Qed.

Lemma run_build_kept fuel acts : ∀ w w',
  run mutable_graph_t func_to_mgraph IS_SEL parse p fuel acts w = Done w' →
  contexts_evolve build_kept w w'.
Proof.
  induction acts as [|act acts IH]; intros w w' H; cbn [run] in H.
  - injection H as <-. apply contexts_evolve_refl, build_kept_refl.
  - apply bind_Done in H as (w1 & H1 & H).
    eapply contexts_evolve_trans; [apply build_kept_trans| |by apply IH].
    by eapply perform_build_kept.
Qed.

(** X8: once the node map of a graph context is built and its refresh mode
    is not rebuild, no run of chooser and graph callbacks (rows entered,
    selections, group files loaded, graph events of any kind) changes the
    node map or the refresh mode of that context for as long as it lives:
    nothing in the plugin ever asks for a rebuild. *)
Theorem node_map_frozen_once_built fuel acts w w' a g :
  graphs w !! a = Some g →
  node_map g ≠ ∅ →
  refresh_mode g ≠ rfm_rebuild →
  run mutable_graph_t func_to_mgraph IS_SEL parse p fuel acts w = Done w' →
  match graphs w' !! a with
  | Some g' => node_map g' = node_map g ∧ refresh_mode g' = refresh_mode g
  | None => True
  end.
Proof.
  intros Hg Hne Hm H. apply run_build_kept in H. specialize (H a).
  rewrite Hg in H. destruct (graphs w' !! a) as [g'|]; [|done].
  destruct H as [M N]. split; [by apply N | done].
Qed.

Lemma run_highlight_kept fuel acts :
  Forall (no_selection mutable_graph_t) acts →
  ∀ w w',
    run mutable_graph_t func_to_mgraph IS_SEL parse p fuel acts w = Done w' →
    contexts_evolve highlight_kept w w'.
Proof.
  induction 1 as [|act acts Hact Hno IH]; intros w w' H; cbn [run] in H.
  - injection H as <-. by apply contexts_evolve_refl.
  - apply bind_Done in H as (w1 & H1 & H).
    eapply contexts_evolve_trans; [apply highlight_kept_trans| |by apply IH].
    by eapply perform_highlight_kept.
Qed.

(** X7: a run of callbacks in which no row is entered or selected (group
    files loaded, graph events of any kind) leaves the highlight map of
    every graph context that is still there as it was: only [enter] writes
    highlights. *)
Theorem highlight_written_by_enter_only fuel acts w w' a g :
  Forall (no_selection mutable_graph_t) acts →
  graphs w !! a = Some g →
  run mutable_graph_t func_to_mgraph IS_SEL parse p fuel acts w = Done w' →
  match graphs w' !! a with
  | Some g' => sel_nodes g' = sel_nodes g
  | None => True
  end.
Proof.
  intros Hno Hg H. apply (run_highlight_kept fuel acts Hno) in H.
  specialize (H a). rewrite Hg in H. by destruct (graphs w' !! a).
Qed.

End RunFacts.

(** ** Loading twice *)

Section ReloadFacts.
Variable parse : string → groupman_t → bool * groupman_t.

Lemma load_file_failure filename w t :
  gm_deletable w →
  parse filename groupman_new = (false, t) →
  ∃ w1,
    load_file parse filename w = Done (false, w1) ∧
    ch_nodes (chooser w1) = ch_nodes (chooser w) ∧
    gm (chooser w1) = Some (brk w) ∧
    groupmans w1 !! brk w = None ∧
    (∀ a, gm (chooser w) = Some a → groupmans w1 !! a = None).
Proof.
  intros Hdel Hparse.
  destruct (delete_groupman_ok w Hdel)
    as (w1 & Hw1 & Hgone & _ & Hgr & Hbrk & Hch & Hout & Href).
  unfold load_file. rewrite Hw1. cbn. unfold new_groupman. cbn.
  rewrite Hparse. cbn. rewrite lookup_insert_eq. cbn.
  eexists. split; [done|]. cbn. rewrite Hch, Hbrk.
  split; [done|]. split; [done|]. split; [apply lookup_delete_eq|].
  intros a Ha. destruct (decide (a = brk w)) as [->|Hne].
  - apply lookup_delete_eq.
  - rewrite lookup_delete_ne by done. rewrite !lookup_insert_ne by done.
    rewrite (Hgone a Ha). apply lookup_delete_eq.
Qed.

(** X9: after a load that failed to parse, the chooser's [gm] is left
    pointing at the tree [load_file] released on its way out, so the next
    [load_file], whatever the file, starts with [delete gm] on a released
    object. *)
Theorem load_after_failed_load_faults filename w t :
  gm_deletable w →
  parse filename groupman_new = (false, t) →
  ∃ w1,
    load_file parse filename w = Done (false, w1) ∧
    (∃ a, gm (chooser w1) = Some a ∧ groupmans w1 !! a = None) ∧
    ∀ filename', load_file parse filename' w1 = Fault.
Proof.
  intros Hdel Hparse.
  destruct (load_file_failure filename w t Hdel Hparse)
    as (w1 & Hload & _ & Hgm & Hdead & _).
  exists w1. split; [done|]. split; [by exists (brk w)|].
  intros filename'. unfold load_file, delete_groupman.
  rewrite Hgm, Hdead. done.
Qed.

End ReloadFacts.

(** ** Describing rows *)

Section DescribeFacts.
Variable qbasename : string → string.
Variable fmt_ea : Z → string.
Variable qstrncpy : string → string.
Variable parse : string → groupman_t → bool * groupman_t.

Lemma string_app_cons c (s t : string) : String c s +:+ t = String c (s +:+ t).
Proof. reflexivity. Qed.

Lemma string_app_nil_r (s : string) : s +:+ "" = s.
Proof.
  induction s as [|c s IH]; [reflexivity|]. by rewrite string_app_cons, IH.
Qed.

Lemma string_app_assoc (s t u : string) : (s +:+ t) +:+ u = s +:+ t +:+ u.
Proof.
  induction s as [|c s IH]; [reflexivity|]. by rewrite !string_app_cons, IH.
Qed.

Lemma desc_nodes_join nl : ∀ out,
  Z.of_nat (length nl) < 2 ^ 32 →
  desc_nodes fmt_ea nl (Z.of_nat (length nl)) out
    = out +:+ String.concat ", " (desc_node fmt_ea <$> nl).
Proof.
  induction nl as [|nd nl IH]; intros out Hlen.
  - cbn. by rewrite string_app_nil_r.
  - cbn [desc_nodes].
    assert (E : (Z.of_nat (length (nd :: nl)) - 1) `mod` 2 ^ 32
                = Z.of_nat (length nl)).
    { cbn [length] in *. rewrite Z.mod_small; lia. }
    rewrite E. rewrite fmap_cons. destruct nl as [|nd' nl'].
    + cbn. done.
    + assert (Hpos : (0 <? Z.of_nat (length (nd' :: nl'))) = true).
      { apply Z.ltb_lt. cbn [length]. lia. }
      rewrite Hpos, IH by (cbn [length] in *; lia).
      rewrite fmap_cons. cbn [String.concat].
      by rewrite !string_app_assoc.
Qed.

(** X11: the line of a list row whose node definition list has fewer than
    2^32 nodes is eight blanks, [NDL(count):(], the nodes as [id:start:end]
    joined by a comma and a blank, and a closing parenthesis: there is a
    separator between two nodes, none after the last one and none for an
    empty list. *)
Theorem list_row_description w chn nl :
  chn_type chn = chnt_nl →
  deref_nl w (chn_nl chn) = Done nl →
  Z.of_nat (length nl) < 2 ^ 32 →
  get_node_desc qbasename fmt_ea w chn
    = Done ((MY_TABSTR +:+ MY_TABSTR +:+ "NDL(" +:+
             fmt_d (Z.of_nat (length nl)) +:+ "):(") +:+
            String.concat ", " (desc_node fmt_ea <$> nl) +:+ ")").
Proof.
  intros Hty Hnl Hlen. unfold get_node_desc. rewrite Hty, Hnl.
  cbn [mbind outcome_bind].
  rewrite Z.mod_small by lia. rewrite desc_nodes_join by done.
  by rewrite string_app_assoc.
Qed.

Lemma Forall_imap {A B : Type} (P : B → Prop) (f : nat → A → B)
    (l : list A) :
  (∀ i x, l !! i = Some x → P (f i x)) → Forall P (imap f l).
Proof.
  intros H. apply Forall_lookup. intros i y. rewrite list_lookup_imap.
  destruct (l !! i) as [x|] eqn:E; [|done]. intros [= <-]. by apply H.
Qed.

Lemma Forall_concat_imap {A B : Type} (P : B → Prop) (l : list A) :
  ∀ f : nat → A → list B,
  (∀ i x, l !! i = Some x → Forall P (f i x)) →
  Forall P (concat (imap f l)).
Proof.
  induction l as [|x l IH]; intros f H; [constructor|].
  cbn. apply Forall_app. split.
  - by apply (H 0%nat).
  - apply IH. intros i y Hi. by apply (H (S i)).
Qed.

(** Every row made for a live tree can be described. *)
Lemma preorder_rows_described w a t :
  groupmans w !! a = Some t →
  Forall (fun chn => ∃ s, get_node_desc qbasename fmt_ea w chn = Done s)
         (preorder_rows a t).
Proof.
  intros Ht. unfold preorder_rows. constructor.
  - unfold get_node_desc, deref_gm. cbn. rewrite Ht. cbn. by eexists.
  - apply Forall_concat_imap. intros i gd Hgd. unfold group_rows. constructor.
    + unfold get_node_desc, deref_gd, deref_ngl. cbn.
      rewrite Ht. cbn. rewrite Hgd. cbn. by eexists.
    + apply Forall_imap. intros j nl Hnl.
      destruct (rows_resolve w a t i j gd nl Ht Hgd Hnl) as [_ E].
      unfold get_node_desc. rewrite E. cbn. by eexists.
Qed.

(** No row made for a tree that was released can be described. *)
Lemma preorder_rows_dangling w a t :
  groupmans w !! a = None →
  Forall (fun chn => get_node_desc qbasename fmt_ea w chn = Fault)
         (preorder_rows a t).
Proof.
  intros Ht. unfold preorder_rows. constructor.
  - unfold get_node_desc, deref_gm. cbn. by rewrite Ht.
  - apply Forall_concat_imap. intros i gd Hgd. unfold group_rows. constructor.
    + unfold get_node_desc, deref_gd. cbn. by rewrite Ht.
    + apply Forall_imap. intros j nl Hnl.
      unfold get_node_desc, deref_nl. cbn. by rewrite Ht.
Qed.

Lemma getl_row n w chn :
  1 ≤ n < 2 ^ 32 →
  ch_nodes (chooser w) !! Z.to_nat (n - 1) = Some chn →
  getl qbasename fmt_ea qstrncpy n w
    = desc ← get_node_desc qbasename fmt_ea w chn;
      Done (Some (qstrncpy desc)).
Proof.
  intros Hn Hrow. unfold getl.
  assert (E0 : (n =? 0) = false) by (apply Z.eqb_neq; lia).
  assert (E1 : (1 <=? n) = true) by (apply Z.leb_le; lia).
  rewrite E0, E1, Z.mod_small by lia.
  assert (Z.to_nat (n - 1) < length (ch_nodes (chooser w)))%nat
    by (apply lookup_lt_is_Some; by eexists).
  assert (E2 : (Z.of_nat (length (ch_nodes (chooser w))) <=? n - 1) = false)
    by (apply Z.leb_gt; lia).
  rewrite E2, Hrow. done.
Qed.

(** X10: after a group file was loaded into a chooser without rows, [getl]
    writes a line for the header ([n = 0]) and for every row
    ([1 ≤ n ≤ sizer]), and writes nothing for any larger index; it never
    reads outside the rows or through a dangling pointer. *)
Theorem getl_after_first_load filename w t :
  gm_deletable w →
  ch_nodes (chooser w) = [] →
  parse filename groupman_new = (true, t) →
  ∃ w',
    load_file parse filename w = Done (true, w') ∧
    ∀ n, 0 ≤ n < 2 ^ 32 →
      (n ≤ Z.of_nat (sizer w') →
         ∃ line, getl qbasename fmt_ea qstrncpy n w' = Done (Some line)) ∧
      (Z.of_nat (sizer w') < n →
         getl qbasename fmt_ea qstrncpy n w' = Done None).
Proof.
  intros Hdel Hrows Hparse.
  destruct (load_file_success parse filename w t Hdel Hparse)
    as (w' & Hload & Hch & _ & Hlive & _).
  exists w'. split; [done|]. rewrite Hrows in Hch. cbn in Hch.
  intros n Hn. unfold sizer. split.
  - intros Hle. destruct (decide (n = 0)) as [->|Hn0]; [by eexists|].
    destruct (lookup_lt_is_Some_2 (ch_nodes (chooser w')) (Z.to_nat (n - 1)))
      as [chn Hchn]; [lia|].
    rewrite (getl_row n w' chn) by (done || lia).
    pose proof (preorder_rows_described w' (brk w) t Hlive) as HF.
    rewrite <- Hch in HF.
    destruct (proj1 (Forall_lookup _ _) HF _ _ Hchn) as [s ->].
    by eexists.
  - intros Hgt. unfold getl.
    assert (E0 : (n =? 0) = false) by (apply Z.eqb_neq; lia).
    assert (E1 : (1 <=? n) = true) by (apply Z.leb_le; lia).
    rewrite E0, E1, Z.mod_small by lia.
    assert (E2 : (Z.of_nat (length (ch_nodes (chooser w'))) <=? n - 1) = true)
      by (apply Z.leb_le; lia).
    by rewrite E2.
Qed.

(** X12: when a group file is loaded into a chooser that shows the rows of
    a tree loaded before, the old rows stay in place while their tree is
    released, whether the new file parses or not: [getl] for any of them
    then reads through a dangling pointer.  ([new] does not hand out the
    address of the tree that is still live.) *)
Theorem getl_old_row_after_reload filename w a t0 n :
  gm (chooser w) = Some a →
  groupmans w !! a = Some t0 →
  a ≠ brk w →
  ch_nodes (chooser w) = preorder_rows a t0 →
  1 ≤ n ≤ Z.of_nat (row_count t0) →
  n < 2 ^ 32 →
  ∃ b w',
    load_file parse filename w = Done (b, w') ∧
    getl qbasename fmt_ea qstrncpy n w' = Fault.
Proof.
  intros Hgm Hlive Hne Hrows Hn Hn32.
  assert (Hdel : gm_deletable w)
    by (unfold gm_deletable; by rewrite Hgm, Hlive).
  assert (Hold : ∀ w',
    groupmans w' !! a = None →
    (∃ new, ch_nodes (chooser w') = preorder_rows a t0 ++ new) →
    getl qbasename fmt_ea qstrncpy n w' = Fault).
  { intros w' Hdead [new Hch].
    assert (Hlt : (Z.to_nat (n - 1) < length (preorder_rows a t0))%nat)
      by (rewrite preorder_rows_length; lia).
    destruct (lookup_lt_is_Some_2 _ _ Hlt) as [chn Hchn].
    rewrite (getl_row n w' chn); [|lia|].
    - pose proof (preorder_rows_dangling w' a t0 Hdead) as HF.
      by rewrite (proj1 (Forall_lookup _ _) HF _ _ Hchn).
    - rewrite Hch, lookup_app_l by done. done. }
  destruct (parse filename groupman_new) as [[] t] eqn:Hparse.
  - destruct (load_file_success parse filename w t Hdel Hparse)
      as (w' & Hload & Hch & _ & _ & Hgone & _).
    exists true, w'. split; [done|]. apply Hold; [by apply Hgone|].
    rewrite Hch, Hrows. by eexists.
  - destruct (load_file_failure parse filename w t Hdel Hparse)
      as (w' & Hload & Hch & _ & _ & Hgone).
    exists false, w'. split; [done|]. apply Hold; [by apply Hgone|].
    exists []. by rewrite Hch, Hrows, app_nil_r.
Qed.

End DescribeFacts.

(** ** Group rows, index bounds, and reading the highlight back *)

Section SelectionFacts.
Variable mutable_graph_t : Type.
Variable func_to_mgraph :
  Z → mutable_graph_t → gmap Z gnode_t → mutable_graph_t * gmap Z gnode_t.
Variable IS_SEL : Z → bool.
Variable p : ColorGen.palette.

Lemma painted_lists_lookup cs : ∀ ngl (m : gmap Z ColorGen.bgcolor_t) k,
  length cs = length ngl →
  is_Some (painted_lists cs ngl m !! k)
    ↔ k ∈ nid <$> concat ngl ∨ is_Some (m !! k).
Proof.
  unfold painted_lists.
  induction cs as [|c cs IH]; intros [|nl ngl] m k Hlen;
    cbn [length] in Hlen; try lia.
  - cbn. split; [by right | intros [H|H]; [|done]].
    by apply not_elem_of_nil in H.
  - cbn [zip zip_with foldl fst snd concat]. rewrite IH by lia.
    rewrite painted_lookup, fmap_app, elem_of_app.
    destruct (decide (k ∈ nid <$> nl)) as [Hin|Hin].
    + rewrite bool_decide_eq_true_2 by done.
      split; [intros _; by left; left | intros _; right; by eexists].
    + rewrite bool_decide_eq_false_2 by done. split.
      * intros [H|H]; [left; by right | by right].
      * intros [[H|H]|H]; [done | by left | by right].
Qed.

Lemma draw_colours_step fuel cg cv clr cg1 cv1 k :
  (2 ≤ fuel)%nat →
  ColorGen.get_color_anyway p 2 cg cv = Some (clr, cg1, cv1) →
  color_anyway p fuel cg cv = Done (clr, cg1, cv1) ∧
  ColorGen.draw_colours p (S k) cg cv
    = clr :: ColorGen.draw_colours p k cg1 cv1.
Proof.
  intros Hf H2. split.
  - unfold color_anyway.
    by rewrite (get_color_anyway_mono p 2 fuel cg cv _ Hf H2).
  - cbn [ColorGen.draw_colours]. by rewrite H2.
Qed.

(** The loop over the lists of a group paints them in turn, list after
    list with the colour the next call of [get_color_anyway] returns; none
    of these colours is 0. *)
Lemma paint_lists_drawn fuel a ngl :
  ColorGen.nonempty p → (2 ≤ fuel)%nat →
  ∀ cg cv w g,
    gr (chooser w) = Some a →
    graphs w !! a = Some g →
    length (ColorGen.draw_colours p (length ngl) cg cv) = length ngl ∧
    Forall (fun c => c ≠ 0) (ColorGen.draw_colours p (length ngl) cg cv) ∧
    ∃ cg' cv',
      paint_lists p fuel ngl cg cv w
        = Done (cg', cv',
                set_graphs
                  (<[a := set_sel_nodes
                            (painted_lists
                               (ColorGen.draw_colours p (length ngl) cg cv)
                               ngl (sel_nodes g)) g]>
                     (graphs w)) w).
Proof.
  intros Hne Hf. induction ngl as [|nl ngl IH]; intros cg cv w g Hgr Hg.
  - split; [done|]. split; [constructor|]. exists cg, cv.
    cbn [paint_lists length ColorGen.draw_colours].
    unfold painted_lists. cbn [zip zip_with foldl].
    by rewrite set_sel_nodes_same, insert_id, set_graphs_same.
  - destruct (get_color_anyway_2 p cg cv Hne) as (clr & cg1 & cv1 & H2 & Hz).
    destruct (draw_colours_step fuel cg cv clr cg1 cv1 (length ngl) Hf H2)
      as [Hdone Hdraw].
    cbn [length]. rewrite Hdraw. cbn [paint_lists].
    rewrite Hdone. cbn [mbind outcome_bind].
    rewrite (paint_list_ok clr nl w a g Hgr Hg). cbn [mbind outcome_bind].
    set (g1 := set_sel_nodes (painted clr nl (sel_nodes g)) g).
    set (w1 := set_graphs (<[a:=g1]> (graphs w)) w).
    destruct (IH cg1 cv1 w1 g1) as (Hlen & Hnz & cg' & cv' & Hrun).
    { exact Hgr. }
    { apply lookup_insert_eq. }
    split; [cbn [length]; by rewrite Hlen|].
    split; [by constructor|].
    exists cg', cv'. rewrite Hrun. subst w1 g1. cbn [graphs set_graphs].
    by rewrite insert_insert_eq, set_sel_nodes_twice, set_graphs_twice.
Qed.

(** X2: when a group row is entered while the chooser has a graph context
    with a viewer, and the palette is not empty, [enter] clears the
    highlight map, takes a new base colour and paints the node definition
    lists of the group in turn: the first list with the colour the first
    call of [get_color_anyway] returns, the second with the colour the
    second call returns, and so on, each call starting from the generator
    state the previous one left.  None of these colours is 0.  The
    highlight map then holds exactly the node ids of these lists, every
    other field of the context is as before, and one refresh of the viewer
    is requested. *)
Theorem enter_group_row_paints_lists fuel n w chn ngl a g v :
  ColorGen.nonempty p →
  (2 ≤ fuel)%nat →
  IS_SEL n = true →
  n ≤ Z.of_nat (length (ch_nodes (chooser w))) →
  ch_nodes (chooser w) !! Z.to_nat ((n - 1) `mod` 2 ^ 32) = Some chn →
  chn_type chn = chnt_gd →
  deref_ngl w (chn_ngl chn) = Done ngl →
  gr (chooser w) = Some a →
  graphs w !! a = Some g →
  gv g = Some v →
  ∃ cs w' g',
    cs = ColorGen.draw_colours p (length ngl)
           (ColorGen.get_colorvar p ColorGen.cg_new ColorGen.cv_new).1.2
           (ColorGen.get_colorvar p ColorGen.cg_new ColorGen.cv_new).2 ∧
    length cs = length ngl ∧ Forall (fun c => c ≠ 0) cs ∧
    enter IS_SEL p fuel n w = Done w' ∧
    graphs w' !! a = Some g' ∧
    sel_nodes g' = painted_lists cs ngl ∅ ∧
    (∀ k, is_Some (sel_nodes g' !! k) ↔ k ∈ nid <$> concat ngl) ∧
    g' = set_sel_nodes (sel_nodes g') g ∧
    refreshed w' = refreshed w ++ [Some v].
Proof.
  intros Hne Hf Hsel Hn Hrow Hty Hngl Hgr Hg Hgv.
  rewrite (enter_guard_passed IS_SEL p n w chn Hsel Hn Hrow).
  rewrite Hty, Hgr. cbn [mbind outcome_bind of_option]. rewrite Hg.
  cbn [mbind outcome_bind of_option]. rewrite Hgv.
  unfold clear_sel_nodes. rewrite Hgr. cbn [mbind outcome_bind of_option].
  rewrite Hg. cbn [mbind outcome_bind of_option].
  destruct (ColorGen.get_colorvar p ColorGen.cg_new ColorGen.cv_new)
    as [[ok cg1] cv1]. cbn [fst snd].
  set (g0 := set_sel_nodes ∅ g).
  set (w0 := set_graphs (<[a:=g0]> (graphs w)) w).
  assert (Hngl0 : deref_ngl w0 (chn_ngl chn) = Done ngl) by exact Hngl.
  rewrite Hngl0. cbn [mbind outcome_bind].
  destruct (paint_lists_drawn fuel a ngl Hne Hf cg1 cv1 w0 g0)
    as (Hlen & Hnz & cg' & cv' & Hrun).
  { exact Hgr. }
  { apply lookup_insert_eq. }
  rewrite Hrun. cbn [mbind outcome_bind]. subst w0 g0.
  cbn [graphs set_graphs chooser gr sel_nodes set_sel_nodes].
  rewrite Hgr. cbn [mbind outcome_bind of_option].
  rewrite insert_insert_eq, lookup_insert_eq.
  cbn [mbind outcome_bind of_option].
  eexists _, _, _. split; [done|]. split; [done|]. split; [done|].
  split; [done|].
  cbn [graphs refresh_viewer set_graphs refreshed].
  split; [apply lookup_insert_eq|]. cbn [sel_nodes set_sel_nodes].
  split; [done|]. split.
  - intros k. rewrite painted_lists_lookup by done.
    rewrite lookup_empty. split; [intros [H|[? H]]; done | by left].
  - split; [done|]. cbn [gv set_sel_nodes]. by rewrite Hgv.
Qed.



(** X4: the only lower bound [enter] puts on its index is [IS_SEL]: an index
    beyond the rows, or one [IS_SEL] rejects, changes nothing; but index 0,
    should [IS_SEL] accept it, passes the size check and reads row
    [0xFFFFFFFF], outside any row vector of fewer than 2^32 rows. *)
Theorem enter_index_bounds fuel n w :
  (IS_SEL n = false ∨ Z.of_nat (length (ch_nodes (chooser w))) < n →
     enter IS_SEL p fuel n w = Done w) ∧
  (IS_SEL 0 = true →
   Z.of_nat (length (ch_nodes (chooser w))) < 2 ^ 32 →
     enter IS_SEL p fuel 0 w = Fault).
Proof.
  split.
  - intros H. unfold enter. destruct H as [-> | H]; [done|].
    apply Z.ltb_lt in H. rewrite H. by rewrite orb_true_r.
  - intros H0 Hlen. unfold enter. rewrite H0. cbn [negb orb].
    assert (E : (Z.of_nat (length (ch_nodes (chooser w))) <? 0) = false)
      by (apply Z.ltb_ge; lia).
    rewrite E.
    assert (Hout : ch_nodes (chooser w) !! Z.to_nat ((0 - 1) `mod` 2 ^ 32)
                   = None).
    { apply lookup_ge_None. change ((0 - 1) `mod` 2 ^ 32) with (2 ^ 32 - 1).
      lia. }
    by rewrite Hout.
Qed.

End SelectionFacts.

(** ** More runs on the sample host *)

Section MoreSampleRuns.
Import Sample.

Lemma enter_file_row_paints_witness :
  ∃ w' g',
    enter is_sel pal 2 1 (w_shown {[7 := 5]}) = Done w' ∧
    graphs w' !! 2%positive = Some g' ∧
    is_Some (sel_nodes g' !! 99) ∧
    sel_nodes g' !! 7 = Some 5 ∧
    refreshed w' = [].
Proof.
  destruct (enter_file_row_paints is_sel pal 2 1 (w_shown {[7 := 5]})
              (row_gm 1%positive) tree_a 2%positive (graph_a {[7 := 5]}))
    as (w' & g' & H1 & H2 & H3 & H4 & H5).
  - split; simpl; lia.
  - lia.
  - reflexivity.
  - simpl. lia.
  - reflexivity.
  - reflexivity.
  - reflexivity.
  - reflexivity.
  - reflexivity.
  - exists w', g'. split; [exact H1|]. split; [exact H2|].
    split; [apply H3; vm_compute; left|].
    split; [|exact H5].
    rewrite H4; [reflexivity|]. vm_compute. intros H.
    inversion H as [|? ? ? H']. inversion H'.
Defined.

Lemma enter_group_row_paints_lists_witness :
  ∃ w' g',
    enter is_sel pal 2 2 (w_built_b {[7 := 5]}) = Done w' ∧
    graphs w' !! 2%positive = Some g' ∧
    sel_nodes g' = {[1 := 1; 2 := 1; 3 := 2]} ∧
    refreshed w' = [Some 7%positive].
Proof.
  destruct (enter_group_row_paints_lists is_sel pal 2 2 (w_built_b {[7 := 5]})
              (row_gd 1%positive 0)
              [[NodeDef 1 8192 8200; NodeDef 2 8200 8208];
               [NodeDef 3 8208 8216]]
              2%positive (graph_built {[7 := 5]}) 7%positive)
    as (cs & w' & g' & Hcs & _ & _ & H1 & H2 & H3 & _ & _ & H4).
  - split; simpl; lia.
  - lia.
  - reflexivity.
  - simpl. lia.
  - reflexivity.
  - reflexivity.
  - reflexivity.
  - reflexivity.
  - reflexivity.
  - reflexivity.
  - exists w', g'. split; [exact H1|]. split; [exact H2|].
    split; [|exact H4].
    rewrite H3, Hcs. vm_compute. reflexivity.
Defined.

Lemma enter_only_writes_highlight_witness :
  ∃ w',
    enter is_sel pal 2 3 (w_shown ∅) = Done w' ∧
    only_highlight (w_shown ∅) w' ∧
    (refreshed w' = refreshed (w_shown ∅) ∨
     ∃ v, refreshed w' = refreshed (w_shown ∅) ++ [v]).
Proof.
  eexists. split; [vm_compute; reflexivity|].
  apply (enter_only_writes_highlight is_sel pal 2 3 (w_shown ∅)).
  vm_compute. reflexivity.
Defined.

Lemma enter_index_bounds_witness :
  enter is_sel pal 2 9 (w_shown ∅) = Done (w_shown ∅) ∧
  enter is_sel pal 2 0 (w_shown ∅) = Fault.
Proof.
  split.
  - apply (proj1 (enter_index_bounds is_sel pal 2 9 (w_shown ∅))).
    right. simpl. lia.
  - apply (proj2 (enter_index_bounds is_sel pal 2 9 (w_shown ∅))).
    + reflexivity.
    + simpl. lia.
Defined.

Lemma enter_after_destroy_is_noop_witness :
  ∃ w',
    gr_callback unit conv 2%positive grcode_destroyed (w_shown {[7 := 5]})
      = Done (1, reply_none, w') ∧
    enter is_sel pal 2 3 w' = Done w'.
Proof.
  eexists. split; [vm_compute; reflexivity|].
  apply (enter_after_destroy_is_noop unit conv is_sel pal 2 3
           (w_shown {[7 := 5]}) 2%positive (graph_a {[7 := 5]}) _
           (row_nl 1%positive 0 0)).
  - reflexivity.
  - reflexivity.
  - reflexivity.
  - vm_compute. reflexivity.
  - reflexivity.
  - simpl. lia.
  - reflexivity.
  - discriminate.
Defined.


Lemma highlight_written_by_enter_only_witness :
  ∃ w' g',
    run unit conv is_sel parse pal 2 quiet_run (w_shown {[99 := 1]})
      = Done w' ∧
    graphs w' !! 2%positive = Some g' ∧
    sel_nodes g' = {[99 := 1]}.
Proof.
  unshelve epose proof
    (highlight_written_by_enter_only unit conv is_sel parse pal 2
       quiet_run (w_shown {[99 := 1]}) _ 2%positive
       (graph_a {[99 := 1]}) _ _ _) as H;
    [shelve | repeat constructor | reflexivity | vm_compute; reflexivity |].
  eexists _, _. split; [vm_compute; reflexivity|].
  split; [vm_compute; reflexivity|]. exact H.
Defined.

Lemma node_map_frozen_once_built_witness :
  ∃ w' g',
    run unit conv is_sel parse pal 2 busy_run (w_built ∅) = Done w' ∧
    graphs w' !! 2%positive = Some g' ∧
    node_map g' = two_nodes ∧ refresh_mode g' = rfm_soft.
Proof.
  unshelve epose proof
    (node_map_frozen_once_built unit conv is_sel parse pal 2
       busy_run (w_built ∅) _ 2%positive (graph_built ∅) _ _ _ _) as H;
    [shelve | reflexivity | exact two_nodes_nonempty | discriminate
    | vm_compute; reflexivity |].
  eexists _, _. split; [vm_compute; reflexivity|].
  split; [vm_compute; reflexivity|]. exact H.
Defined.

Lemma load_after_failed_load_faults_witness :
  ∃ w1,
    load_file parse "missing.bbgroup" w_fresh = Done (false, w1) ∧
    load_file parse "a.bbgroup" w1 = Fault.
Proof.
  destruct (load_after_failed_load_faults parse "missing.bbgroup" w_fresh
              groupman_new) as (w1 & H1 & _ & H2).
  - exact I.
  - reflexivity.
  - exists w1. split; [exact H1 | apply H2].
Defined.

Lemma list_row_description_witness :
  get_node_desc qbasename fmt_ea (w_built_b ∅) (row_nl 1%positive 0 0)
    = Done "        NDL(2):(1:8192:8200, 2:8200:8208)".
Proof.
  rewrite (list_row_description qbasename fmt_ea (w_built_b ∅)
             (row_nl 1%positive 0 0)
             [NodeDef 1 8192 8200; NodeDef 2 8200 8208]).
  - reflexivity.
  - reflexivity.
  - reflexivity.
  - simpl. lia.
Defined.

Lemma getl_after_first_load_witness :
  ∃ w',
    load_file parse "b.bbgroup" w_fresh = Done (true, w') ∧
    (∃ line, getl qbasename fmt_ea qstrncpy 4 w' = Done (Some line)) ∧
    getl qbasename fmt_ea qstrncpy 5 w' = Done None.
Proof.
  destruct (getl_after_first_load qbasename fmt_ea qstrncpy parse
              "b.bbgroup" w_fresh tree_b) as (w' & H1 & H2).
  - exact I.
  - reflexivity.
  - reflexivity.
  - exists w'. split; [exact H1|].
    assert (Hs : sizer w' = 4%nat).
    { vm_compute in H1. injection H1 as <-. reflexivity. }
    split.
    + apply (H2 4); [lia|]. rewrite Hs. lia.
    + apply (H2 5); [lia|]. rewrite Hs. lia.
Defined.

Lemma getl_old_row_after_reload_witness :
  ∃ b w',
    load_file parse "b.bbgroup" (w_shown ∅) = Done (b, w') ∧
    getl qbasename fmt_ea qstrncpy 2 w' = Fault.
Proof.
  apply (getl_old_row_after_reload qbasename fmt_ea qstrncpy parse
           "b.bbgroup" (w_shown ∅) 1%positive tree_a 2).
  - reflexivity.
  - reflexivity.
  - discriminate.
  - reflexivity.
  - vm_compute. split; discriminate.
  - lia.
Defined.

(** A selection whose first index is -1 reaches [enter] as [0xFFFFFFFF],
    beyond the rows: nothing happens. *)
Example select_negative_index :
  select is_sel pal 2 [-1] (w_shown {[7 := 5]}) = Done (w_shown {[7 := 5]}).
Proof. vm_compute. reflexivity. Qed.

(** C3 evaluated: a file that does not parse is loaded while [a.bbgroup]
    is in use at address 1 and shown.  [load_file] writes the error line
    and returns [false]; by then the tree at address 1 is released while
    the three rows that point into it are still in place, and the
    chooser's [gm] holds the address of the object the error path released.
    The chooser is not in its previous state and not in a usable one: the
    line of each of the three rows, entering the list row and the next
    load all go through a released object.  The same holds of the pointer
    [gm] after a first load that fails. *)
Theorem failed_load_leaves_dangling_chooser :
  (∃ w',
     load_file parse "missing.bbgroup" (w_shown ∅) = Done (false, w') ∧
     output w' = [parse_error "missing.bbgroup"] ∧
     groupmans (w_shown ∅) !! 1%positive = Some tree_a ∧
     groupmans w' !! 1%positive = None ∧
     ch_nodes (chooser w') = rows_a ∧
     gm (chooser w') = Some 3%positive ∧
     groupmans w' !! 3%positive = None ∧
     getl qbasename fmt_ea qstrncpy 1 w' = Fault ∧
     getl qbasename fmt_ea qstrncpy 2 w' = Fault ∧
     getl qbasename fmt_ea qstrncpy 3 w' = Fault ∧
     enter is_sel pal 2 3 w' = Fault ∧
     load_file parse "a.bbgroup" w' = Fault) ∧
  (∃ w1,
     load_file parse "missing.bbgroup" w_fresh = Done (false, w1) ∧
     ch_nodes (chooser w1) = [] ∧
     gm (chooser w1) = Some 1%positive ∧
     groupmans w1 !! 1%positive = None ∧
     load_file parse "a.bbgroup" w1 = Fault).
Proof.
  split.
  - eexists. split; [vm_compute; reflexivity|].
    repeat split; vm_compute; reflexivity.
  - eexists. split; [vm_compute; reflexivity|].
    repeat split; vm_compute; reflexivity.
Qed.

(** C6 evaluated: [b.bbgroup], one group with two node definition lists,
    is loaded while the three rows of [a.bbgroup] are in the chooser.  The
    load returns [true]; [sizer] is 7 where the count of the loaded tree is
    1 + (1 + 2) = 4, and the rows do not start with the file row of the
    loaded tree but with the rows of the tree that was released; the rows
    of the loaded tree follow, in pre-order, from row 4 on. *)
Theorem reload_row_count_off :
  ∃ w',
    load_file parse "b.bbgroup" (w_shown ∅) = Done (true, w') ∧
    gm (chooser w') = Some 3%positive ∧
    groupmans w' !! 3%positive = Some tree_b ∧
    row_count tree_b = 4%nat ∧
    sizer w' = 7%nat ∧
    ch_nodes (chooser w') !! 0%nat = Some (row_gm 1%positive) ∧
    ch_nodes (chooser w') ≠ preorder_rows 3%positive tree_b ∧
    drop 3 (ch_nodes (chooser w')) = preorder_rows 3%positive tree_b.
Proof.
  eexists. split; [vm_compute; reflexivity|].
  split; [vm_compute; reflexivity|].
  split; [vm_compute; reflexivity|].
  split; [vm_compute; reflexivity|].
  split; [vm_compute; reflexivity|].
  split; [vm_compute; reflexivity|].
  split; [vm_compute; discriminate|].
  vm_compute. reflexivity.
Qed.

End MoreSampleRuns.
